(** * TaskMate-AI: the slot-packing scheduler of [smart_scheduler.py]

    A shallow embedding of the scheduler core ([smart_scheduler.py]) and of
    the response validator of the reorder helper
    ([schedule_tasks_with_llm.py]), followed by the properties of the
    specification that were settled against it.

    Conventions of the embedding:
    - a [datetime] is the number of microseconds since midnight of day 0 on
      an unbounded time line (Python's [MINYEAR]/[MAXYEAR] limits are not
      modelled); its fields are recovered by division, and [replace]
      rebuilds a timestamp from fields;
    - a [timedelta] is a number of microseconds;
    - text is ASCII text;
    - a raised exception is a value [Raise e] of the result type. *)

From Stdlib Require Import ZArith List String Ascii Bool Lia Permutation.
Import ListNotations.
Open Scope Z_scope.

(** ** Timestamps *)

(** Both are integers; the names keep the signatures of the source. *)
Abbreviation datetime := Z (only parsing).
Abbreviation timedelta := Z (only parsing).

Definition US_PER_SECOND : Z := 1000000.
Definition US_PER_MINUTE : Z := 60 * US_PER_SECOND.
Definition US_PER_HOUR : Z := 60 * US_PER_MINUTE.
Definition US_PER_DAY : Z := 24 * US_PER_HOUR.

Definition dt_date (t : datetime) : Z := t / US_PER_DAY.
Definition dt_hour (t : datetime) : Z := (t / US_PER_HOUR) mod 24.
Definition dt_minute (t : datetime) : Z := (t / US_PER_MINUTE) mod 60.
Definition dt_second (t : datetime) : Z := (t / US_PER_SECOND) mod 60.
Definition dt_microsecond (t : datetime) : Z := t mod US_PER_SECOND.

(** [datetime.combine(date, time(h, m, s, us))]. *)
Definition mk_datetime (d h m s us : Z) : datetime :=
  d * US_PER_DAY + h * US_PER_HOUR + m * US_PER_MINUTE + s * US_PER_SECOND + us.

(** [dt.replace(second=0, microsecond=0)]. *)
Definition replace_second_microsecond (t : datetime) (s us : Z) : datetime :=
  mk_datetime (dt_date t) (dt_hour t) (dt_minute t) s us.

(** [dt.replace(minute=k)]. *)
Definition replace_minute (t : datetime) (k : Z) : datetime :=
  mk_datetime (dt_date t) (dt_hour t) k (dt_second t) (dt_microsecond t).

Definition td_minutes (n : Z) : timedelta := n * US_PER_MINUTE.
Definition td_hours (n : Z) : timedelta := n * US_PER_HOUR.

(** ** Configuration *)

Definition GRID_MINUTES : list Z := [0; 15; 30; 45].
Definition FORCED_BREAK_MIN : Z := 5.
Definition PERSONAL_WINDOW_HOURS : Z := 6.

(** ** Grid quantizers *)

(** [max(l)] of a list of integers, [d] standing for the empty case that
    the callers exclude. *)
Definition list_max (d : Z) (l : list Z) : Z :=
  match l with
  | [] => d
  | x :: r => fold_left Z.max r x
  end.

(** The [for k in GRID_MINUTES: if m <= k: return ...] loop is the search
    for the first grid value at or above [m]. *)
Definition _round_up_to_grid (dt : datetime) : datetime :=
  let dt := replace_second_microsecond dt 0 0 in
  let m := dt_minute dt in
  match find (fun k => m <=? k) GRID_MINUTES with
  | Some k => replace_minute dt k
  | None => replace_minute (dt + td_hours 1) (hd 0 GRID_MINUTES)
  end.

Definition grid_downs (m : Z) : list Z := filter (fun k => k <=? m) GRID_MINUTES.

Definition _round_down_to_grid (dt : datetime) : datetime :=
  let dt := replace_second_microsecond dt 0 0 in
  let m := dt_minute dt in
  let downs := grid_downs m in
  match downs with
  | _ :: _ => replace_minute dt (list_max 0 downs)
  | [] => replace_minute (dt - td_hours 1) (list_max 0 GRID_MINUTES)
  end.

(** A timestamp on the quarter-hour grid. *)
Definition on_grid (t : datetime) : Prop :=
  dt_microsecond t = 0 /\ dt_second t = 0 /\ In (dt_minute t) GRID_MINUTES.

(** ** Exceptions *)

Inductive exn : Type := ValueError | TypeError | AttributeError.

Inductive result (A : Type) : Type :=
| Ok (a : A)
| Raise (e : exn).
Arguments Ok {A} a.
Arguments Raise {A} e.

Definition bind {A B : Type} (m : result A) (f : A -> result B) : result B :=
  match m with
  | Ok a => f a
  | Raise e => Raise e
  end.

Notation "x <- m ;; k" := (bind m (fun x => k))
  (at level 61, m at next level, right associativity).
Notation "' p <- m ;; k" := (bind m (fun x => match x with p => k end))
  (at level 61, p pattern, m at next level, right associativity).

(** ** Text *)

Open Scope string_scope.
Open Scope list_scope.
Open Scope Z_scope.

Definition code (c : ascii) : Z := Z.of_N (N_of_ascii c).

(** [str.isspace] and the regular expression class [\s], on ASCII. *)
Definition is_space (c : ascii) : bool :=
  let n := code c in
  ((9 <=? n) && (n <=? 13)) || ((28 <=? n) && (n <=? 32)).

Definition is_digit (c : ascii) : bool :=
  let n := code c in (48 <=? n) && (n <=? 57).

Definition digit_value (c : ascii) : Z := code c - 48.

Definition is_upper (c : ascii) : bool :=
  let n := code c in (65 <=? n) && (n <=? 90).

Definition is_lower (c : ascii) : bool :=
  let n := code c in (97 <=? n) && (n <=? 122).

(** The regular expression class [\w], on ASCII. *)
Definition is_word (c : ascii) : bool :=
  is_upper c || is_lower c || is_digit c || (code c =? 95).

Definition lower_char (c : ascii) : ascii :=
  if is_upper c then ascii_of_N (N_of_ascii c + 32) else c.

(** [s.lower()]. *)
Fixpoint lower (s : string) : string :=
  match s with
  | EmptyString => EmptyString
  | String c r => String (lower_char c) (lower r)
  end.

(** [s.lstrip()]. *)
Fixpoint lstrip (s : string) : string :=
  match s with
  | String c r => if is_space c then lstrip r else s
  | EmptyString => EmptyString
  end.

(** [s.rstrip()]: a character is kept when it is not white space or when
    something is kept after it. *)
Fixpoint rstrip (s : string) : string :=
  match s with
  | EmptyString => EmptyString
  | String c r =>
      match rstrip r with
      | EmptyString => if is_space c then EmptyString else String c EmptyString
      | r' => String c r'
      end
  end.

(** [s.strip()]. *)
Definition strip (s : string) : string := rstrip (lstrip s).

(** [s.lstrip("0")]. *)
Fixpoint lstrip_zeros (s : string) : string :=
  match s with
  | String c r => if Ascii.eqb c "0" then lstrip_zeros r else s
  | EmptyString => EmptyString
  end.

Definition digit_char (n : Z) : ascii := ascii_of_N (Z.to_N (48 + n)).

(** The decimal digits of a non-negative number, most significant first;
    [fuel] bounds the number of digits. *)
Fixpoint digits_of (fuel : nat) (n : Z) (acc : string) : string :=
  match fuel with
  | O => acc
  | S fuel' =>
      let acc' := String (digit_char (n mod 10)) acc in
      if n <? 10 then acc' else digits_of fuel' (n / 10) acc'
  end.

(** [str(n)] for an integer [n]. *)
Definition str_of_int (n : Z) : string :=
  let a := Z.abs n in
  let ds := digits_of (S (Z.to_nat (Z.log2 a))) a EmptyString in
  if n <? 0 then String "-" ds else ds.

(** The value of a run of decimal digits in which single underscores may
    separate digits, as [int] accepts it: [acc] is the value so far and
    [after_digit] tells whether the previous character was a digit. *)
Fixpoint int_digits (s : string) (acc : Z) (after_digit : bool) : option Z :=
  match s with
  | EmptyString => if after_digit then Some acc else None
  | String c r =>
      if is_digit c then int_digits r (10 * acc + digit_value c) true
      else if Ascii.eqb c "_" then
        if after_digit then int_digits r acc false else None
      else None
  end.

(** [int(s)] for a string [s]: [None] stands for [ValueError]. *)
Definition py_int_of_string (s : string) : option Z :=
  match strip s with
  | String "-" r => option_map Z.opp (int_digits r 0 false)
  | String "+" r => int_digits r 0 false
  | r => int_digits r 0 false
  end.

(** ** Python values

    A value found in a task dictionary.  [POther] stands for every value
    that is neither [None], a [bool], an [int] nor a [str] (a float, a list,
    a nested dictionary): the scheduler only ever applies [str] and [int] to
    it, so it is given by the text [str] returns and by the number [int]
    returns, [None] when [int] raises. *)

Inductive pyval : Type :=
| PNone
| PBool (b : bool)
| PInt (n : Z)
| PStr (s : string)
| POther (as_str : string) (as_int : option Z).

(** [str(v)]. *)
Definition py_str (v : pyval) : string :=
  match v with
  | PNone => "None"
  | PBool true => "True"
  | PBool false => "False"
  | PInt n => str_of_int n
  | PStr s => s
  | POther r _ => r
  end.

(** [int(v)]. *)
Definition py_int (v : pyval) : result Z :=
  match v with
  | PNone => Raise TypeError
  | PBool b => Ok (if b then 1 else 0)
  | PInt n => Ok n
  | PStr s =>
      match py_int_of_string s with
      | Some n => Ok n
      | None => Raise ValueError
      end
  | POther _ (Some n) => Ok n
  | POther _ None => Raise TypeError
  end.

(** A task dictionary: the keys the scheduler and the validator read, each
    absent ([None]) or bound to a value. *)
Record task : Type := mkTask {
  task_description : option pyval;
  task_priority : option pyval;
  task_energy : option pyval;
  task_duration : option pyval;
  task_deadline : option pyval
}.

(** [d.get(key, default)]. *)
Definition get_default (field : option pyval) (default : pyval) : pyval :=
  match field with
  | Some v => v
  | None => default
  end.

(** [d.get(key)]. *)
Definition get (field : option pyval) : pyval := get_default field PNone.

(** The value bound to ["work_hours"] in a profile: a dictionary, of which
    only the key ["end"] is read, or any other value. *)
Inductive work_hours_value : Type :=
| WorkHoursDict (end_ : option pyval)
| WorkHoursOther.

Record profile : Type := mkProfile {
  work_hours : option work_hours_value
}.

(** ** Clock formats *)

Definition two_digits (n : Z) : string :=
  String (digit_char (n / 10)) (String (digit_char (n mod 10)) EmptyString).

(** [t.strftime("%I:%M %p").lstrip("0")], in the C locale. *)
Definition _fmt (t : datetime) : string :=
  let h := dt_hour t in
  let h12 := if h mod 12 =? 0 then 12 else h mod 12 in
  let p := if h <? 12 then "AM" else "PM" in
  lstrip_zeros (two_digits h12 ++ ":" ++ two_digits (dt_minute t) ++ " " ++ p)%string.

(** The alternatives of a [strptime] directive, in the order in which the
    regular expression built by [_strptime] tries them: each candidate is
    the number read and the text that follows it. *)

(** [%H]: [2[0-3]|[0-1]\d|\d]. *)
Definition directive_H (s : string) : list (Z * string) :=
  match s with
  | String a r =>
      (match r with
       | String b r' =>
           (if Ascii.eqb a "2" && is_digit b && (digit_value b <=? 3)
            then [(20 + digit_value b, r')] else []) ++
           (if is_digit a && (digit_value a <=? 1) && is_digit b
            then [(10 * digit_value a + digit_value b, r')] else [])
       | EmptyString => []
       end) ++
      (if is_digit a then [(digit_value a, r)] else [])
  | EmptyString => []
  end.

(** [%I]: [1[0-2]|0[1-9]|[1-9]]. *)
Definition directive_I (s : string) : list (Z * string) :=
  match s with
  | String a r =>
      (match r with
       | String b r' =>
           (if Ascii.eqb a "1" && is_digit b && (digit_value b <=? 2)
            then [(10 + digit_value b, r')] else []) ++
           (if Ascii.eqb a "0" && is_digit b && (1 <=? digit_value b)
            then [(digit_value b, r')] else [])
       | EmptyString => []
       end) ++
      (if is_digit a && (1 <=? digit_value a) then [(digit_value a, r)] else [])
  | EmptyString => []
  end.

(** [%M]: [[0-5]\d|\d]. *)
Definition directive_M (s : string) : list (Z * string) :=
  match s with
  | String a r =>
      (match r with
       | String b r' =>
           if is_digit a && (digit_value a <=? 5) && is_digit b
           then [(10 * digit_value a + digit_value b, r')] else []
       | EmptyString => []
       end) ++
      (if is_digit a then [(digit_value a, r)] else [])
  | EmptyString => []
  end.

(** A literal, compared without regard to case. *)
Fixpoint eat_ci (lit s : string) : option string :=
  match lit with
  | EmptyString => Some s
  | String l lit' =>
      match s with
      | String c r => if Ascii.eqb (lower_char c) (lower_char l) then eat_ci lit' r else None
      | EmptyString => None
      end
  end.

Definition eat_char (c : ascii) (s : string) : option string :=
  match s with
  | String a r => if Ascii.eqb a c then Some r else None
  | EmptyString => None
  end.

(** The first candidate, in order, on which the rest of the pattern
    succeeds: the backtracking of the regular expression engine. *)
Fixpoint first_success {A B : Type} (f : A -> option B) (l : list A) : option B :=
  match l with
  | [] => None
  | x :: r =>
      match f x with
      | Some y => Some y
      | None => first_success f r
      end
  end.

(** [datetime.strptime(s, "%H:%M")]: the hour, the minute; the whole text
    has to be consumed by the first match. *)
Definition strptime_HM (s : string) : result (Z * Z) :=
  let found :=
    first_success (fun '(h, r) =>
      match eat_char ":" r with
      | Some r1 => first_success (fun '(m, r2) => Some (h, m, r2)) (directive_M r1)
      | None => None
      end) (directive_H s) in
  match found with
  | Some (h, m, EmptyString) => Ok (h, m)
  | _ => Raise ValueError
  end.

(** The day on which [strptime] places a time without a date
    (1 January 1900); every sort key lies on it. *)
Definition STRPTIME_DAY : Z := 0.

(** [datetime.strptime(s, "%I:%M %p")], in the C locale; white space in the
    format stands for [\s+]. *)
Definition strptime_IMp (s : string) : result datetime :=
  let found :=
    first_success (fun '(h, r) =>
      match eat_char ":" r with
      | Some r1 =>
          first_success (fun '(m, r2) =>
            match r2 with
            | String c _ =>
                if is_space c then
                  let r3 := lstrip r2 in
                  match eat_ci "am" r3 with
                  | Some r4 => Some (h, m, false, r4)
                  | None =>
                      match eat_ci "pm" r3 with
                      | Some r4 => Some (h, m, true, r4)
                      | None => None
                      end
                  end
                else None
            | EmptyString => None
            end) (directive_M r1)
      | None => None
      end) (directive_I s) in
  match found with
  | Some (h, m, pm, EmptyString) =>
      let hour :=
        if pm then (if h =? 12 then h else h + 12)
        else (if h =? 12 then 0 else h) in
      Ok (mk_datetime STRPTIME_DAY hour m 0 0)
  | _ => Raise ValueError
  end.

(** [_time_to_dt(base_day, hhmm)]; [strptime] raises [TypeError] on a value
    that is not a string. *)
Definition _time_to_dt (base_day : datetime) (hhmm : pyval) : result datetime :=
  match hhmm with
  | PStr s =>
      '(h, m) <- strptime_HM s ;;
      Ok (mk_datetime (dt_date base_day) h m 0 0)
  | _ => Raise TypeError
  end.

(** ** Deadline phrases *)

(** The groups of a match of [_DEADLINE_RE]. *)
Record deadline_match : Type := mkDeadlineMatch {
  group_hour : string;
  group_minute : option string;
  group_ampm : string
}.

Definition is_word_opt (c : option ascii) : bool :=
  match c with
  | Some a => is_word a
  | None => false
  end.

Definition head_char (s : string) : option ascii :=
  match s with
  | String c _ => Some c
  | EmptyString => None
  end.

(** [\b] between the character [prev] and the text [s]. *)
Definition word_boundary (prev : option ascii) (s : string) : bool :=
  xorb (is_word_opt prev) (is_word_opt (head_char s)).

(** [(?P<ampm>am|pm)\b] after [\s*]; the white space is taken greedily,
    which loses no match since what follows is a letter. *)
Definition match_ampm (s : string) : option string :=
  let s1 := lstrip s in
  let check (lit : string) :=
    match eat_ci lit s1 with
    | Some r => if word_boundary (Some "m"%char) r then Some (substring 0 2 s1) else None
    | None => None
    end in
  match check "am" with
  | Some g => Some g
  | None => check "pm"
  end.

(** [\d{n}] for [n] = 1 or 2: the digits and the text after them. *)
Definition eat_digits (n : nat) (s : string) : option (string * string) :=
  let ds := substring 0 n s in
  if (Nat.eqb (String.length ds) n) && forallb is_digit (list_ascii_of_string ds)
  then Some (ds, substring n (String.length s - n) s) else None.

(** [(?:\s*:\s*(?P<minute>\d{2}))?\s*(?P<ampm>am|pm)\b]: the optional group
    is tried first, then skipped. *)
Definition match_after_hour (hour : string) (s : string) : option deadline_match :=
  let with_minute :=
    match eat_char ":" (lstrip s) with
    | Some r =>
        match eat_digits 2 (lstrip r) with
        | Some (mi, r') =>
            option_map (fun ap => mkDeadlineMatch hour (Some mi) ap) (match_ampm r')
        | None => None
        end
    | None => None
    end in
  match with_minute with
  | Some g => Some g
  | None => option_map (fun ap => mkDeadlineMatch hour None ap) (match_ampm s)
  end.

(** [\s*(?P<hour>\d{1,2})...]: two digits are tried before one. *)
Definition match_after_keyword (s : string) : option deadline_match :=
  let s1 := lstrip s in
  first_success (fun n =>
    match eat_digits n s1 with
    | Some (h, r) => match_after_hour h r
    | None => None
    end) [2%nat; 1%nat].

(** [_DEADLINE_RE] tried at one position, [prev] being the character
    before it. *)
Definition match_deadline_at (prev : option ascii) (s : string) : option deadline_match :=
  if word_boundary prev s then
    first_success (fun kw =>
      match eat_ci kw s with
      | Some r => match_after_keyword r
      | None => None
      end) ["before"; "by"]
  else None.

(** [_DEADLINE_RE.search(text)]: the match at the leftmost position. *)
Fixpoint deadline_search (prev : option ascii) (s : string) : option deadline_match :=
  match match_deadline_at prev s with
  | Some g => Some g
  | None =>
      match s with
      | String c r => deadline_search (Some c) r
      | EmptyString => None
      end
  end.

(** [int(g)] on a group of one or two digits. *)
Definition int_of_digits (g : string) : Z :=
  fold_left (fun acc c => 10 * acc + digit_value c) (list_ascii_of_string g) 0.

(** [now.replace(hour=h, minute=m, second=0, microsecond=0)]. *)
Definition replace_time (t : datetime) (h m : Z) : result datetime :=
  if (0 <=? h) && (h <=? 23) && (0 <=? m) && (m <=? 59)
  then Ok (mk_datetime (dt_date t) h m 0 0)
  else Raise ValueError.

Definition _parse_deadline_from_text (text : string) (now : datetime)
  : result (option datetime) :=
  match deadline_search None text with
  | None => Ok None
  | Some m =>
      let hour := int_of_digits (group_hour m) in
      let minute :=
        match group_minute m with
        | Some g => int_of_digits g
        | None => 0
        end in
      let ampm := lower (group_ampm m) in
      let hour := if hour =? 12 then 0 else hour in
      let hour := if String.eqb ampm "pm" then hour + 12 else hour in
      d <- replace_time now hour minute ;;
      Ok (Some d)
  end.

(** [re.match(r"^\d{2}:\d{2}$", s)]: [$] also matches before a final
    newline. *)
Definition matches_hhmm (s : string) : bool :=
  match eat_digits 2 s with
  | Some (_, r) =>
      match eat_char ":" r with
      | Some r1 =>
          match eat_digits 2 r1 with
          | Some (_, r2) => String.eqb r2 "" || String.eqb r2 (String "010"%char "")
          | None => false
          end
      | None => false
      end
  | None => false
  end.

(** ** Durations *)

Definition _duration_minutes (t : task) : Z :=
  let val := get_default (task_duration t) (PInt 30) in
  let minutes :=
    match val with
    | PInt n => n
    | PBool b => if b then 1 else 0
    | _ =>
        let s := lower (strip (py_str val)) in
        if String.eqb s "short" then 15
        else if String.eqb s "medium" then 30
        else if String.eqb s "long" then 60
        else match py_int_of_string s with
             | Some n => n
             | None => 30
             end
    end in
  Z.max 5 (Z.min minutes 240).

(** ** Packing helpers *)

Definition interval : Type := datetime * datetime.

Definition overlaps (start end_ : datetime) (i : interval) : bool :=
  negb ((end_ <=? fst i) || (start >=? snd i)).

Definition _fits (start end_ : datetime) (occupied : list interval)
  (day_start day_end : datetime) : bool :=
  if (start <? day_start) || (end_ >? day_end) || (start >=? end_) then false
  else forallb (fun i => negb (overlaps start end_ i)) occupied.

Definition _add_with_break (occupied : list interval) (start end_ : datetime)
  : list interval :=
  occupied ++ [(start, end_); (end_, end_ + td_minutes FORCED_BREAK_MIN)].

(** [sorted(l, key=key)]: Python's sort is stable, and so is insertion
    before the first element with a strictly greater key or an equal one
    that came later. *)
Section StableSort.
Context {A : Type} (key : A -> Z).

Fixpoint insert_by (x : A) (l : list A) : list A :=
  match l with
  | [] => [x]
  | y :: r => if key x <=? key y then x :: l else y :: insert_by x r
  end.

Fixpoint sorted_by (l : list A) : list A :=
  match l with
  | [] => []
  | x :: r => insert_by x (sorted_by r)
  end.
End StableSort.

(** The loop of [_merge]: [(ls, le)] is [out[-1]], the run being grown. *)
Fixpoint merge_runs (ls le : datetime) (occ : list interval) : list interval :=
  match occ with
  | [] => [(ls, le)]
  | (s, e) :: r =>
      if s <=? le then merge_runs ls (Z.max le e) r
      else (ls, le) :: merge_runs s e r
  end.

Definition _merge (occupied : list interval) : list interval :=
  match sorted_by fst occupied with
  | [] => []
  | (s, e) :: r => merge_runs s e r
  end.

(** The [for _ in range(12 * 4 + 1)] loop of [_find_backward_slot], [n]
    iterations being left. *)
Fixpoint backward_scan (n : nat) (end_candidate : datetime) (dur : timedelta)
  (occupied : list interval) (day_start deadline : datetime) : option interval :=
  match n with
  | O => None
  | S n' =>
      let start_candidate := end_candidate - dur in
      let start_candidate := _round_up_to_grid start_candidate in
      let end_candidate := start_candidate + dur in
      if _fits start_candidate end_candidate occupied day_start deadline
      then Some (start_candidate, end_candidate)
      else
        let end_candidate := end_candidate - td_minutes 15 in
        if end_candidate <=? day_start then None
        else backward_scan n' end_candidate dur occupied day_start deadline
  end.

Definition SCAN_STEPS : nat := 12 * 4 + 1.

Definition _find_backward_slot (deadline : datetime) (duration_min : Z)
  (occupied : list interval) (day_start : datetime) : option interval :=
  let dur := td_minutes duration_min in
  let end_candidate := _round_down_to_grid deadline in
  backward_scan SCAN_STEPS end_candidate dur occupied day_start deadline.

(** The loop of [_find_forward_slot]. *)
Fixpoint forward_scan (n : nat) (start_candidate : datetime) (dur : timedelta)
  (occupied : list interval) (day_start day_end : datetime) : option interval :=
  match n with
  | O => None
  | S n' =>
      let end_candidate := start_candidate + dur in
      if _fits start_candidate end_candidate occupied day_start day_end
      then Some (start_candidate, end_candidate)
      else
        let start_candidate := start_candidate + td_minutes 15 in
        if start_candidate + dur >? day_end then None
        else forward_scan n' start_candidate dur occupied day_start day_end
  end.

Definition _find_forward_slot (cursor : datetime) (duration_min : Z)
  (occupied : list interval) (day_start day_end : datetime) : option interval :=
  let dur := td_minutes duration_min in
  let start_candidate := _round_up_to_grid (Z.max cursor day_start) in
  forward_scan SCAN_STEPS start_candidate dur occupied day_start day_end.

(** ** The reorder helper ([schedule_tasks_with_llm.py]) *)

(** An element of the array the reorder service answers with: a JSON
    object, read as a task dictionary, or any other JSON value. *)
Inductive json_item : Type :=
| JObject (t : task)
| JOther.

(** [str(item.get(key, "medium")).lower()], replaced by ["medium"] outside
    of low/medium/high. *)
Definition validated_level (field : option pyval) : string :=
  let v := lower (py_str (get_default field (PStr "medium"))) in
  if String.eqb v "low" || String.eqb v "medium" || String.eqb v "high"
  then v else "medium".

(** The body of the loop of [parse_llm_output] on one item: [Ok None] is
    the [continue] on an empty description, [Raise] an exception, which the
    loop swallows; [.get] on a value that is not a dictionary raises
    [AttributeError]. *)
Definition validate_item (item : json_item) : result (option task) :=
  match item with
  | JOther => Raise AttributeError
  | JObject it =>
      let desc := strip (py_str (get_default (task_description it) (PStr ""))) in
      if String.eqb desc "" then Ok None
      else
        let pr := validated_level (task_priority it) in
        let en := validated_level (task_energy it) in
        dur <- py_int (get_default (task_duration it) (PInt 30)) ;;
        let dur := Z.max 5 (Z.min dur 240) in
        Ok (Some (mkTask (Some (PStr desc)) (Some (PStr pr)) (Some (PStr en))
                         (Some (PInt dur)) None))
  end.

Fixpoint validate_items (llm_tasks : list json_item) : list task :=
  match llm_tasks with
  | [] => []
  | item :: r =>
      match validate_item item with
      | Ok (Some t) => t :: validate_items r
      | _ => validate_items r
      end
  end.

Definition parse_llm_output (llm_tasks : list json_item) (fallback : list task)
  : list task :=
  match llm_tasks with
  | [] => fallback
  | _ =>
      match validate_items llm_tasks with
      | [] => fallback
      | out => out
      end
  end.

(** ** The orchestrator *)

(** What a call reads from outside: the wall clock, and the answer of the
    reorder service to the prompt, [None] when [build_prompt] or
    [call_llm_for_schedule] raises. *)
Record world : Type := mkWorld {
  clock : datetime;
  reorder_reply : option (list json_item)
}.

(** The external effects of a call, in the order in which they happen. *)
Inductive event : Type :=
| ReadClock
| CallReorder.

(** An entry of [placed].  The source keeps the description and the two
    formatted times; the embedding keeps the task, its clipped deadline when
    it was placed backward, and the two timestamps, from which [render]
    gives the dictionary of the source.  Nothing but the formatted start
    time is read back from an entry. *)
Record placement : Type := mkPlacement {
  pl_task : task;
  pl_deadline : option datetime;
  pl_start : datetime;
  pl_end : datetime
}.

Record placed_task : Type := mkPlaced {
  description : string;
  start_time : string;
  end_time : string
}.

(** [str(t.get("description", "")).strip()]. *)
Definition task_desc (t : task) : string :=
  strip (py_str (get_default (task_description t) (PStr ""))).

Definition render (p : placement) : placed_task :=
  mkPlaced (task_desc (pl_task p)) (_fmt (pl_start p)) (_fmt (pl_end p)).

(** [profile.get("work_hours", {}).get("end", "17:00")]. *)
Definition profile_work_end (p : profile) : result pyval :=
  match work_hours p with
  | None => Ok (PStr "17:00")
  | Some (WorkHoursDict e) => Ok (get_default e (PStr "17:00"))
  | Some WorkHoursOther => Raise AttributeError
  end.

(** The end of the window; [Ok None] is the early [return []]. *)
Definition window_end (now start_from : datetime) (p : profile)
  (schedule_type : string) : result (option datetime) :=
  if String.eqb schedule_type "work-related" then
    work_end <- profile_work_end p ;;
    day_end <- _time_to_dt now work_end ;;
    if day_end <=? start_from then Ok None else Ok (Some day_end)
  else Ok (Some (start_from + td_hours PERSONAL_WINDOW_HOURS)).

(** The [try ... except Exception] around the reorder. *)
Definition reordered (w : world) (parsed_tasks : list task) : list task :=
  match reorder_reply w with
  | Some refined_raw => parse_llm_output refined_raw parsed_tasks
  | None => parsed_tasks
  end.

(** The deadline of one task: [Ok None] when it has none. *)
Definition task_deadline_dt (now : datetime) (desc : string) (t : task)
  : result (option datetime) :=
  let deadline_str := get (task_deadline t) in
  dl_dt <-
    match deadline_str with
    | PStr s =>
        if matches_hhmm s then
          d <- _time_to_dt now deadline_str ;; Ok (Some d)
        else Ok None
    | _ => Ok None
    end ;;
  match dl_dt with
  | Some d => Ok (Some d)
  | None => _parse_deadline_from_text desc now
  end.

(** The loop that splits the tasks by presence of a deadline. *)
Fixpoint split_tasks (now day_end : datetime) (tasks : list task)
  : result (list (datetime * task) * list task) :=
  match tasks with
  | [] => Ok ([], [])
  | t :: r =>
      let desc := task_desc t in
      if String.eqb desc "" then split_tasks now day_end r
      else
        dl_dt <- task_deadline_dt now desc t ;;
        '(deadline_tasks, normal_tasks) <- split_tasks now day_end r ;;
        match dl_dt with
        | Some d => Ok ((Z.min d day_end, t) :: deadline_tasks, normal_tasks)
        | None => Ok (deadline_tasks, t :: normal_tasks)
        end
  end.

(** The backward loop, on the state [(occupied, placed)]. *)
Fixpoint place_deadline_tasks (start_from : datetime)
  (deadline_tasks : list (datetime * task))
  (occupied : list interval) (placed : list placement)
  : list interval * list placement :=
  match deadline_tasks with
  | [] => (occupied, placed)
  | (dl, t) :: r =>
      let dur_min := _duration_minutes t in
      match _find_backward_slot dl dur_min (_merge occupied) start_from with
      | None => place_deadline_tasks start_from r occupied placed
      | Some (s_dt, e_dt) =>
          place_deadline_tasks start_from r
            (_add_with_break occupied s_dt e_dt)
            (placed ++ [mkPlacement t (Some dl) s_dt e_dt])
      end
  end.

(** [for s, e in occupied: if s <= cursor < e: cursor = e]. *)
Fixpoint skip_occupied (cursor : datetime) (occupied : list interval) : datetime :=
  match occupied with
  | [] => cursor
  | (s, e) :: r =>
      skip_occupied (if (s <=? cursor) && (cursor <? e) then e else cursor) r
  end.

(** The forward loop, on the state [(cursor, occupied, placed)]; both
    [break]s leave it with what has been placed. *)
Fixpoint place_normal_tasks (start_from day_end : datetime)
  (normal_tasks : list task) (cursor : datetime)
  (occupied : list interval) (placed : list placement) : list placement :=
  match normal_tasks with
  | [] => placed
  | t :: r =>
      let dur_min := _duration_minutes t in
      match _find_forward_slot cursor dur_min occupied start_from day_end with
      | None => placed
      | Some (s_dt, e_dt) =>
          let occupied := _merge (_add_with_break occupied s_dt e_dt) in
          let placed := placed ++ [mkPlacement t None s_dt e_dt] in
          let cursor := e_dt + td_minutes FORCED_BREAK_MIN in
          if cursor >=? day_end then placed
          else place_normal_tasks start_from day_end r cursor occupied placed
      end
  end.

(** Both placement phases, from the split task lists. *)
Definition place_all (start_from day_end : datetime)
  (deadline_tasks : list (datetime * task)) (normal_tasks : list task)
  : list placement :=
  let deadline_tasks := sorted_by fst deadline_tasks in
  let '(occupied, placed) := place_deadline_tasks start_from deadline_tasks [] [] in
  let cursor := start_from in
  let occupied := _merge occupied in
  let cursor := skip_occupied cursor occupied in
  place_normal_tasks start_from day_end normal_tasks cursor occupied placed.

(** The keys of the final sort, [strptime] of each formatted start time;
    Python computes them all before it sorts. *)
Fixpoint sort_keys (placed : list placement) : result (list (datetime * placement)) :=
  match placed with
  | [] => Ok []
  | p :: r =>
      k <- strptime_IMp (_fmt (pl_start p)) ;;
      ks <- sort_keys r ;;
      Ok ((k, p) :: ks)
  end.

(** [placed.sort(key=...)]. *)
Definition chronological (placed : list placement) : result (list placement) :=
  ks <- sort_keys placed ;;
  Ok (map snd (sorted_by fst ks)).

(** [schedule_tasks] up to the rendering of the entries: the events of the
    call and its outcome. *)
Definition schedule_placements (w : world) (parsed_tasks : list task)
  (p : profile) (schedule_type : string) : list event * result (list placement) :=
  match parsed_tasks with
  | [] => ([], Ok [])
  | _ =>
      let now := clock w in
      let start_from := _round_up_to_grid now in
      match window_end now start_from p schedule_type with
      | Raise e => ([ReadClock], Raise e)
      | Ok None => ([ReadClock], Ok [])
      | Ok (Some day_end) =>
          let tasks := reordered w parsed_tasks in
          ([ReadClock; CallReorder],
           '(deadline_tasks, normal_tasks) <- split_tasks now day_end tasks ;;
           chronological (place_all start_from day_end deadline_tasks normal_tasks))
      end
  end.

Definition schedule_tasks (w : world) (parsed_tasks : list task)
  (p : profile) (schedule_type : string) : list event * result (list placed_task) :=
  let '(events, r) := schedule_placements w parsed_tasks p schedule_type in
  (events, placed <- r ;; Ok (map render placed)).

(** ** Example inputs *)

(** A task dictionary with a description and a duration in minutes. *)
Definition plain_task (desc : string) (minutes : Z) : task :=
  mkTask (Some (PStr desc)) None None (Some (PInt minutes)) None.

(** The same with a structured deadline. *)
Definition deadline_task (desc : string) (minutes : Z) (hhmm : string) : task :=
  mkTask (Some (PStr desc)) None None (Some (PInt minutes)) (Some (PStr hhmm)).

(** A call at [h]:[m]:12.000055 of day 100, the reorder service being out
    of reach. *)
Definition world_at (h m : Z) : world := mkWorld (mk_datetime 100 h m 12 55) None.

Definition no_profile : profile := mkProfile None.

(** The break that [_add_with_break] records after a placed task. *)
Definition break_of (pl : placement) : interval :=
  (pl_end pl, pl_end pl + td_minutes FORCED_BREAK_MIN).

Definition slot_of (pl : placement) : interval := (pl_start pl, pl_end pl).

(** Two intervals share a point in time ([_fits]'s test). *)
Definition intervals_overlap (i j : interval) : bool := overlaps (fst i) (snd i) j.

(** ** Vocabulary of the properties *)

(** The minute, counted from the start of the hour, that rounding up
    reaches: 60 stands for the next hour's [:00]. *)
Definition grid_up (m : Z) : Z :=
  if m <=? 0 then 0 else if m <=? 15 then 15 else if m <=? 30 then 30
  else if m <=? 45 then 45 else 60.

Definition grid_down (m : Z) : Z :=
  if m <? 15 then 0 else if m <? 30 then 15 else if m <? 45 then 30 else 45.

Definition resolved_deadline (now : datetime) (t : task) : result (option datetime) :=
  task_deadline_dt now (task_desc t) t.

Definition placed_ok (now start_from day_end : datetime) (pl : placement) : Prop :=
  pl_end pl = pl_start pl + td_minutes (_duration_minutes (pl_task pl))
  /\ start_from <= pl_start pl
  /\ pl_end pl <= day_end
  /\ match pl_deadline pl with
     | Some dl =>
         pl_end pl <= dl
         /\ exists d, resolved_deadline now (pl_task pl) = Ok (Some d)
                      /\ dl = Z.min d day_end
     | None => resolved_deadline now (pl_task pl) = Ok None
     end.

Definition deadline_task_ok (now day_end : datetime) (x : datetime * task) : Prop :=
  exists d, resolved_deadline now (snd x) = Ok (Some d) /\ fst x = Z.min d day_end.

(** An interval lies inside one interval of the set. *)
Definition covered (occupied : list interval) (i : interval) : Prop :=
  exists j, In j occupied /\ fst j <= fst i /\ snd i <= snd j.

Definition disjoint (i j : interval) : Prop := snd i <= fst j \/ snd j <= fst i.

(** A later entry avoids an earlier one and the break after it. *)
Definition avoids (earlier later : placement) : Prop :=
  disjoint (slot_of later) (slot_of earlier)
  /\ disjoint (slot_of later) (break_of earlier).

(** The state of the placement loops: every placed task and its break lie
    inside the interval set, and every entry avoids the earlier ones. *)
Definition packed (occupied : list interval) (placed : list placement) : Prop :=
  (forall pl, In pl placed ->
     covered occupied (slot_of pl) /\ covered occupied (break_of pl))
  /\ ForallOrdPairs avoids placed.

Definition tasks_disjoint (a b : placement) : Prop := disjoint (slot_of a) (slot_of b).

(** A list in ascending order of key. *)
Fixpoint ordered_by {A : Type} (key : A -> Z) (l : list A) : Prop :=
  match l with
  | [] => True
  | x :: r => Forall (fun y => key x <= key y) r /\ ordered_by key r
  end.
(** ** The task parser ([task_parser.py]) *)

(** The duration of an item of [parse_tasks]: [int(val)], and the labels
    when [int] raises. *)
Definition normalized_duration (val : pyval) : Z :=
  let duration :=
    match py_int val with
    | Ok n => n
    | Raise _ =>
        let s := lower (strip (py_str val)) in
        if String.eqb s "short" then 15
        else if String.eqb s "medium" then 30
        else if String.eqb s "long" then 60
        else 30
    end in
  Z.max 5 (Z.min duration 240).

(** The deadline of an item of [parse_tasks]; [re.match] raises [TypeError]
    on a value that is neither a string nor [None]. *)
Definition normalized_deadline (field : option pyval) : result pyval :=
  let deadline := get_default field PNone in
  let deadline :=
    match deadline with
    | PStr s =>
        let s := strip s in
        if String.eqb s "" then PNone else PStr s
    | _ => deadline
    end in
  match deadline with
  | PNone => Ok PNone
  | PStr s => if matches_hhmm s then Ok (PStr s) else Ok PNone
  | _ => Raise TypeError
  end.

(** The body of the normalizing loop of [parse_tasks] on one item:
    [Ok None] is the [continue] on an empty description. *)
Definition normalize_item (item : json_item) : result (option task) :=
  match item with
  | JOther => Raise AttributeError
  | JObject it =>
      let desc := strip (py_str (get_default (task_description it) (PStr ""))) in
      if String.eqb desc "" then Ok None
      else
        let priority := validated_level (task_priority it) in
        let energy := validated_level (task_energy it) in
        let duration := normalized_duration (get_default (task_duration it) (PInt 30)) in
        deadline <- normalized_deadline (task_deadline it) ;;
        Ok (Some (mkTask (Some (PStr desc)) (Some (PStr priority)) (Some (PStr energy))
                         (Some (PInt duration)) (Some deadline)))
  end.

(** The normalizing loop of [parse_tasks], on the array [data] that
    [_safe_json] returned. *)
Fixpoint normalize_items (data : list json_item) : result (list task) :=
  match data with
  | [] => Ok []
  | item :: r =>
      o <- normalize_item item ;;
      normalized <- normalize_items r ;;
      match o with
      | Some t => Ok (t :: normalized)
      | None => Ok normalized
      end
  end.

(** ** Model fallback ([_chat_complete], in both helper modules) *)

Definition FALLBACK_MODELS : list string :=
  ["llama-3.3-70b-versatile"; "llama-3.1-8b-instant"].

(** [create] is the completion service during one call: what it answers,
    or the exception it raises, for each model.  The functions return the
    models that were asked, in order, and the outcome. *)
Section ChatComplete.
Context {Resp Exc : Type} (create : string -> Resp + Exc).

(** The [for fb in FALLBACK_MODELS] loop, [e] being the first exception. *)
Fixpoint try_fallbacks (model : string) (fallbacks : list string) (e : Exc)
  : list string * (Resp + Exc) :=
  match fallbacks with
  | [] => ([], inr e)
  | fb :: r =>
      if String.eqb fb model then try_fallbacks model r e
      else
        match create fb with
        | inl resp => ([fb], inl resp)
        | inr _ =>
            let '(asked, out) := try_fallbacks model r e in
            (fb :: asked, out)
        end
  end.

Definition _chat_complete (model : string) : list string * (Resp + Exc) :=
  match create model with
  | inl resp => ([model], inl resp)
  | inr e =>
      let '(asked, out) := try_fallbacks model FALLBACK_MODELS e in
      (model :: asked, out)
  end.
End ChatComplete.

(** ** Vocabulary of the further properties *)

(** The key of the final sort: the time of day of a timestamp, on the day
    of [strptime]. *)
Definition time_of_day (t : datetime) : datetime :=
  mk_datetime STRPTIME_DAY (dt_hour t) (dt_minute t) 0 0.

(** The candidates of the forward scan: the [k]-th is [k] quarter-hours
    after the first. *)
Definition forward_candidate (cursor day_start : datetime) (k : nat) : datetime :=
  _round_up_to_grid (Z.max cursor day_start) + td_minutes (15 * Z.of_nat k).

(** An interval set in canonical form: each interval starts strictly after
    the end of the one before. *)
Fixpoint separated (occ : list interval) : Prop :=
  match occ with
  | [] => True
  | i :: r =>
      match r with
      | [] => True
      | j :: _ => snd i < fst j
      end /\ separated r
  end.

(** A task as [parse_llm_output] and [parse_tasks] rebuild it: a stripped
    description that is not blank, validated levels, a clamped integer
    duration. *)
Definition clean_task (t : task) : Prop :=
  exists desc pr en dur,
    task_description t = Some (PStr desc)
    /\ task_priority t = Some (PStr pr)
    /\ task_energy t = Some (PStr en)
    /\ task_duration t = Some (PInt dur)
    /\ desc <> "" /\ strip desc = desc
    /\ In pr ["low"; "medium"; "high"] /\ In en ["low"; "medium"; "high"]
    /\ 5 <= dur <= 240.

(** The deadline of a task of the parser: [None], or five characters
    [dd:dd]. *)
Definition clean_deadline (t : task) : Prop :=
  task_deadline t = Some PNone
  \/ exists s, task_deadline t = Some (PStr s)
               /\ String.length s = 5%nat /\ matches_hhmm s = true.

(** An entry came out of one of the two slot searches, run from the start
    of the window. *)
Definition found_by_scan (start_from day_end : datetime) (pl : placement) : Prop :=
  (exists dl occ,
      pl_deadline pl = Some dl
      /\ _find_backward_slot dl (_duration_minutes (pl_task pl)) occ start_from
         = Some (pl_start pl, pl_end pl))
  \/ (exists cursor occ,
         pl_deadline pl = None
         /\ _find_forward_slot cursor (_duration_minutes (pl_task pl)) occ start_from day_end
            = Some (pl_start pl, pl_end pl)).

(** A point in time is busy when an interval of the set contains it. *)
Definition busy (occupied : list interval) (x : datetime) : Prop :=
  exists i, In i occupied /\ fst i <= x < snd i.

(** The models [_chat_complete] may ask, in order: the requested one, then
    the fallbacks other than it. *)
Definition candidate_models (model : string) : list string :=
  model :: filter (fun fb => negb (String.eqb fb model)) FALLBACK_MODELS.

(** A model whose call raises. *)
Definition model_fails {Resp Exc : Type} (create : string -> Resp + Exc) (m : string)
  : Prop :=
  exists e, create m = inr e.


(** The phrase ["call by H:MM am"] or ["call by H:MM pm"]. *)
Definition by_phrase (h m : Z) (pm : bool) : string :=
  ("call by " ++ str_of_int h ++ ":" ++ two_digits m ++ (if pm then " pm" else " am"))%string.

(** The phrase ["Before Hpm"], without minutes (and ["Before Ham"]). *)
Definition before_phrase (h : Z) (pm : bool) : string :=
  ("Before " ++ str_of_int h ++ (if pm then "PM" else "AM") ++ ", call home")%string.

(** The 24-hour value of an hour of the 12-hour clock. *)
Definition hour24 (h : Z) (pm : bool) : Z :=
  (if h =? 12 then 0 else h) + (if pm then 12 else 0).

(** The groups that [_DEADLINE_RE] finds in [text] read as hour [h],
    minute [m] (or no minute group) and the given half of the day. *)
Definition phrase_groups_ok (text : string) (h : Z) (m : option Z) (pm : bool) : bool :=
  match deadline_search None text with
  | Some g =>
      (int_of_digits (group_hour g) =? h)
      && match m, group_minute g with
         | Some mv, Some mi => int_of_digits mi =? mv
         | None, None => true
         | _, _ => false
         end
      && Bool.eqb (String.eqb (lower (group_ampm g)) "pm") pm
  | None => false
  end.

(** The shape of a formatted time: [H:MM AM], [HH:MM AM] and the same with
    [PM], the hour from 1 to 12 without leading zero. *)
Definition clock_text (h12 m : Z) (pm : bool) : string :=
  (str_of_int h12 ++ ":" ++ two_digits m ++ (if pm then " PM" else " AM"))%string.
(** * Properties *)

(** ** Field arithmetic *)

Lemma dt_decompose (t : datetime) :
  t = mk_datetime (dt_date t) (dt_hour t) (dt_minute t) (dt_second t) (dt_microsecond t).
Proof.
  unfold mk_datetime, dt_date, dt_hour, dt_minute, dt_second, dt_microsecond,
    US_PER_DAY, US_PER_HOUR, US_PER_MINUTE, US_PER_SECOND.
  assert (E1 : t / (60 * 1000000) = t / 1000000 / 60)
    by (rewrite Z.div_div by lia; f_equal; lia).
  assert (E2 : t / (60 * (60 * 1000000)) = t / 1000000 / 60 / 60)
    by (rewrite !Z.div_div by lia; f_equal; lia).
  assert (E3 : t / (24 * (60 * (60 * 1000000))) = t / 1000000 / 60 / 60 / 24)
    by (rewrite !Z.div_div by lia; f_equal; lia).
  rewrite E1, E2, E3.
  pose proof (Z.div_mod t 1000000).
  pose proof (Z.div_mod (t / 1000000) 60).
  pose proof (Z.div_mod (t / 1000000 / 60) 60).
  pose proof (Z.div_mod (t / 1000000 / 60 / 60) 24).
  lia.
Qed.

Lemma dt_hour_range t : 0 <= dt_hour t < 24.
Proof. unfold dt_hour. apply Z.mod_pos_bound. lia. Qed.

Lemma dt_minute_range t : 0 <= dt_minute t < 60.
Proof. unfold dt_minute. apply Z.mod_pos_bound. lia. Qed.

Lemma dt_second_range t : 0 <= dt_second t < 60.
Proof. unfold dt_second. apply Z.mod_pos_bound. lia. Qed.

Lemma dt_microsecond_range t : 0 <= dt_microsecond t < 1000000.
Proof. unfold dt_microsecond, US_PER_SECOND. apply Z.mod_pos_bound. lia. Qed.

Section Fields.
Variables d h m s us : Z.
Hypothesis Hh : 0 <= h < 24.
Hypothesis Hm : 0 <= m < 60.
Hypothesis Hs : 0 <= s < 60.
Hypothesis Hus : 0 <= us < 1000000.

Lemma date_mk : dt_date (mk_datetime d h m s us) = d.
Proof.
  unfold mk_datetime, dt_date, US_PER_DAY, US_PER_HOUR, US_PER_MINUTE, US_PER_SECOND.
  symmetry. apply (Z.div_unique_pos _ _ _ (h * 3600000000 + m * 60000000 + s * 1000000 + us)); lia.
Qed.

Lemma hour_mk : dt_hour (mk_datetime d h m s us) = h.
Proof.
  unfold mk_datetime, dt_hour, US_PER_DAY, US_PER_HOUR, US_PER_MINUTE, US_PER_SECOND.
  replace ((d * (24 * (60 * (60 * 1000000))) + h * (60 * (60 * 1000000)) +
            m * (60 * 1000000) + s * 1000000 + us) / (60 * (60 * 1000000)))
    with (d * 24 + h).
  - rewrite Z.add_comm, Z.mod_add by lia. apply Z.mod_small; lia.
  - apply (Z.div_unique_pos _ _ _ (m * 60000000 + s * 1000000 + us)); lia.
Qed.

Lemma minute_mk : dt_minute (mk_datetime d h m s us) = m.
Proof.
  unfold mk_datetime, dt_minute, US_PER_DAY, US_PER_HOUR, US_PER_MINUTE, US_PER_SECOND.
  replace ((d * (24 * (60 * (60 * 1000000))) + h * (60 * (60 * 1000000)) +
            m * (60 * 1000000) + s * 1000000 + us) / (60 * 1000000))
    with ((d * 24 + h) * 60 + m).
  - rewrite Z.add_comm, Z.mod_add by lia. apply Z.mod_small; lia.
  - apply (Z.div_unique_pos _ _ _ (s * 1000000 + us)); lia.
Qed.

Lemma second_mk : dt_second (mk_datetime d h m s us) = s.
Proof.
  unfold mk_datetime, dt_second, US_PER_DAY, US_PER_HOUR, US_PER_MINUTE, US_PER_SECOND.
  replace ((d * (24 * (60 * (60 * 1000000))) + h * (60 * (60 * 1000000)) +
            m * (60 * 1000000) + s * 1000000 + us) / 1000000)
    with (((d * 24 + h) * 60 + m) * 60 + s).
  - rewrite Z.add_comm, Z.mod_add by lia. apply Z.mod_small; lia.
  - apply (Z.div_unique_pos _ _ _ us); lia.
Qed.

Lemma microsecond_mk : dt_microsecond (mk_datetime d h m s us) = us.
Proof.
  unfold mk_datetime, dt_microsecond, US_PER_DAY, US_PER_HOUR, US_PER_MINUTE, US_PER_SECOND.
  symmetry.
  apply (Z.mod_unique_pos _ _ (((d * 24 + h) * 60 + m) * 60 + s)); lia.
Qed.
End Fields.

(** Linear arithmetic on timestamps, once the units are numbers. *)
Ltac dt_arith :=
  unfold mk_datetime, td_minutes, td_hours, FORCED_BREAK_MIN, PERSONAL_WINDOW_HOURS,
    US_PER_DAY, US_PER_HOUR, US_PER_MINUTE, US_PER_SECOND in *;
  lia.

Lemma mk_next_hour d h m s us :
  mk_datetime d h m s us + td_hours 1 = mk_datetime d (h + 1) m s us.
Proof. unfold mk_datetime, td_hours. ring. Qed.

Lemma mk_next_day d m s us :
  mk_datetime d 24 m s us = mk_datetime (d + 1) 0 m s us.
Proof. unfold mk_datetime, US_PER_DAY. ring. Qed.

(** The fields of a timestamp one hour after a well-formed one. *)
Lemma next_hour_fields d h m s us :
  0 <= h < 24 -> 0 <= m < 60 -> 0 <= s < 60 -> 0 <= us < 1000000 ->
  let t := mk_datetime d h m s us + td_hours 1 in
  mk_datetime (dt_date t) (dt_hour t) 0 0 0 = mk_datetime d h 0 0 0 + td_hours 1
  /\ dt_minute t = m /\ dt_second t = s /\ dt_microsecond t = us.
Proof.
  intros Hh Hm Hs Hus t. subst t. rewrite mk_next_hour.
  destruct (Z.eq_dec h 23) as [->|Hne].
  - change (23 + 1) with 24. rewrite mk_next_day.
    rewrite date_mk, hour_mk, minute_mk, second_mk, microsecond_mk by lia.
    rewrite <- mk_next_day, <- (mk_next_hour d 23). auto.
  - rewrite date_mk, hour_mk, minute_mk, second_mk, microsecond_mk by lia.
    rewrite <- mk_next_hour. auto.
Qed.

(** ** The grid quantizers *)

Lemma truncated_fields t :
  let t0 := replace_second_microsecond t 0 0 in
  dt_date t0 = dt_date t /\ dt_hour t0 = dt_hour t /\ dt_minute t0 = dt_minute t
  /\ dt_second t0 = 0 /\ dt_microsecond t0 = 0.
Proof.
  pose proof (dt_hour_range t). pose proof (dt_minute_range t).
  unfold replace_second_microsecond. cbv zeta.
  rewrite date_mk, hour_mk, minute_mk, second_mk, microsecond_mk by lia.
  auto.
Qed.

Lemma round_up_spec t :
  _round_up_to_grid t
  = mk_datetime (dt_date t) (dt_hour t) 0 0 0 + td_minutes (grid_up (dt_minute t)).
Proof.
  pose proof (dt_hour_range t) as Hh. pose proof (dt_minute_range t) as Hm.
  destruct (truncated_fields t) as (Ed & Eh & Em & Es & Eu).
  unfold _round_up_to_grid. cbv zeta. rewrite Em.
  unfold GRID_MINUTES, grid_up, find.
  destruct (dt_minute t <=? 0) eqn:C0;
    [|destruct (dt_minute t <=? 15) eqn:C1;
      [|destruct (dt_minute t <=? 30) eqn:C2;
        [|destruct (dt_minute t <=? 45) eqn:C3]]].
  1-4: unfold replace_minute; rewrite Ed, Eh, Es, Eu; dt_arith.
  unfold replace_second_microsecond.
  destruct (next_hour_fields (dt_date t) (dt_hour t) (dt_minute t) 0 0)
    as (E1 & _ & E3 & E4); try lia.
  cbv zeta in E1, E3, E4.
  unfold replace_minute, hd. rewrite E3, E4, E1. dt_arith.
Qed.

Lemma grid_downs_nonempty m : 0 <= m -> grid_downs m <> [].
Proof.
  intros Hm. unfold grid_downs, GRID_MINUTES. cbn [filter].
  replace (0 <=? m) with true by (symmetry; apply Z.leb_le; exact Hm).
  discriminate.
Qed.

Lemma grid_downs_max m :
  0 <= m -> list_max 0 (grid_downs m) = grid_down m.
Proof.
  intros Hm. unfold grid_downs, GRID_MINUTES, grid_down. cbn [filter].
  replace (0 <=? m) with true by (symmetry; apply Z.leb_le; exact Hm).
  destruct (15 <=? m) eqn:C1; destruct (30 <=? m) eqn:C2; destruct (45 <=? m) eqn:C3;
    destruct (m <? 15) eqn:D1; destruct (m <? 30) eqn:D2; destruct (m <? 45) eqn:D3;
    try reflexivity; lia.
Qed.

Lemma round_down_spec t :
  _round_down_to_grid t
  = mk_datetime (dt_date t) (dt_hour t) (grid_down (dt_minute t)) 0 0.
Proof.
  pose proof (dt_minute_range t) as Hm.
  destruct (truncated_fields t) as (Ed & Eh & Em & Es & Eu).
  unfold _round_down_to_grid. cbv zeta. rewrite Em.
  pose proof (grid_downs_nonempty (dt_minute t) (proj1 Hm)) as Hne.
  pose proof (grid_downs_max (dt_minute t) (proj1 Hm)) as Hmax.
  destruct (grid_downs (dt_minute t)) as [|k ks]; [congruence|].
  rewrite Hmax. unfold replace_minute. rewrite Ed, Eh, Es, Eu. reflexivity.
Qed.

Lemma grid_up_cases m :
  0 <= m < 60 ->
  (grid_up m = 60 /\ 45 < m) \/
  (In (grid_up m) GRID_MINUTES /\ m <= grid_up m /\ grid_up (grid_up m) = grid_up m).
Proof.
  intros Hm. unfold grid_up, GRID_MINUTES.
  destruct (m <=? 0) eqn:C0;
    [|destruct (m <=? 15) eqn:C1;
      [|destruct (m <=? 30) eqn:C2;
        [|destruct (m <=? 45) eqn:C3]]];
    cbn; try (right; repeat split; auto; lia); left; lia.
Qed.

Lemma grid_down_cases m :
  0 <= m < 60 ->
  In (grid_down m) GRID_MINUTES /\ grid_down m <= m < grid_down m + 15
  /\ grid_down (grid_down m) = grid_down m.
Proof.
  intros Hm. unfold grid_down, GRID_MINUTES.
  destruct (m <? 15) eqn:C0;
    [|destruct (m <? 30) eqn:C1;
      [|destruct (m <? 45) eqn:C2]];
    cbn; repeat split; auto; lia.
Qed.

Lemma grid_fixed m :
  In m GRID_MINUTES -> grid_up m = m /\ grid_down m = m.
Proof.
  unfold GRID_MINUTES. cbn [In].
  intros [<-|[<-|[<-|[<-|[]]]]]; split; reflexivity.
Qed.

Lemma round_up_on_grid t : on_grid (_round_up_to_grid t).
Proof.
  pose proof (dt_hour_range t) as Hh. pose proof (dt_minute_range t) as Hm.
  rewrite round_up_spec.
  destruct (grid_up_cases (dt_minute t) Hm) as [[E _]|(Hin & _ & _)].
  - rewrite E.
    replace (mk_datetime (dt_date t) (dt_hour t) 0 0 0 + td_minutes 60)
      with (mk_datetime (dt_date t) (dt_hour t) 0 0 0 + td_hours 1)
      by dt_arith.
    destruct (next_hour_fields (dt_date t) (dt_hour t) 0 0 0) as (_ & E2 & E3 & E4);
      try lia.
    cbv zeta in E2, E3, E4. unfold on_grid. rewrite E2, E3, E4.
    unfold GRID_MINUTES. cbn. auto.
  - assert (Hk : 0 <= grid_up (dt_minute t) < 60)
      by (unfold GRID_MINUTES in Hin; cbn in Hin; lia).
    replace (mk_datetime (dt_date t) (dt_hour t) 0 0 0 + td_minutes (grid_up (dt_minute t)))
      with (mk_datetime (dt_date t) (dt_hour t) (grid_up (dt_minute t)) 0 0)
      by dt_arith.
    unfold on_grid. rewrite minute_mk, second_mk, microsecond_mk by lia. auto.
Qed.

Lemma round_down_on_grid t : on_grid (_round_down_to_grid t).
Proof.
  pose proof (dt_hour_range t) as Hh. pose proof (dt_minute_range t) as Hm.
  rewrite round_down_spec.
  destruct (grid_down_cases (dt_minute t) Hm) as (Hin & Hk & _).
  assert (Hr : 0 <= grid_down (dt_minute t) < 60)
    by (pose proof Hin as Hin'; unfold GRID_MINUTES in Hin'; cbn [In] in Hin'; lia).
  unfold on_grid. rewrite minute_mk, second_mk, microsecond_mk by lia. auto.
Qed.

Lemma round_up_fixed t : on_grid t -> _round_up_to_grid t = t.
Proof.
  intros (Eu & Es & Hin). rewrite round_up_spec.
  destruct (grid_fixed _ Hin) as [-> _].
  rewrite (dt_decompose t) at 4. rewrite Es, Eu. dt_arith.
Qed.

Lemma round_down_fixed t : on_grid t -> _round_down_to_grid t = t.
Proof.
  intros (Eu & Es & Hin). rewrite round_down_spec.
  destruct (grid_fixed _ Hin) as [_ ->].
  rewrite (dt_decompose t) at 4. rewrite Es, Eu. reflexivity.
Qed.

(** C7: both quantizers are idempotent, and a timestamp already on the
    quarter-hour grid (seconds and microseconds zero, minute 0, 15, 30 or
    45) is returned unchanged by both. *)
Theorem grid_quantizers_idempotent (t : datetime) :
  _round_up_to_grid (_round_up_to_grid t) = _round_up_to_grid t
  /\ _round_down_to_grid (_round_down_to_grid t) = _round_down_to_grid t
  /\ (on_grid t -> _round_up_to_grid t = t /\ _round_down_to_grid t = t).
Proof.
  split; [|split].
  - apply round_up_fixed, round_up_on_grid.
  - apply round_down_fixed, round_down_on_grid.
  - intros Hg. split; [apply round_up_fixed | apply round_down_fixed]; exact Hg.
Qed.

Lemma grid_quantizers_idempotent_witness :
  on_grid (mk_datetime 100 9 45 0 0)
  /\ _round_up_to_grid (mk_datetime 100 9 45 0 0) = mk_datetime 100 9 45 0 0
  /\ _round_down_to_grid (mk_datetime 100 9 45 0 0) = mk_datetime 100 9 45 0 0.
Proof.
  assert (Hg : on_grid (mk_datetime 100 9 45 0 0))
    by (unfold on_grid; vm_compute; intuition congruence).
  split; [exact Hg|].
  exact (proj2 (proj2 (grid_quantizers_idempotent (mk_datetime 100 9 45 0 0))) Hg).
Defined.

(** C9: rounding down keeps the date and the hour, yields the greatest
    grid minute at or below the original minute with zero seconds and
    microseconds, and never takes the branch that rolls back to the previous
    hour: the list of grid values at or below the minute is never empty. *)
Theorem round_down_keeps_hour (t : datetime) :
  grid_downs (dt_minute (replace_second_microsecond t 0 0)) <> []
  /\ dt_date (_round_down_to_grid t) = dt_date t
  /\ dt_hour (_round_down_to_grid t) = dt_hour t
  /\ In (dt_minute (_round_down_to_grid t)) GRID_MINUTES
  /\ dt_minute (_round_down_to_grid t) <= dt_minute t
  /\ (forall k, In k GRID_MINUTES -> k <= dt_minute t ->
                k <= dt_minute (_round_down_to_grid t))
  /\ dt_second (_round_down_to_grid t) = 0
  /\ dt_microsecond (_round_down_to_grid t) = 0.
Proof.
  pose proof (dt_hour_range t) as Hh. pose proof (dt_minute_range t) as Hm.
  destruct (truncated_fields t) as (_ & _ & Em & _ & _).
  destruct (grid_down_cases (dt_minute t) Hm) as (Hin & Hk & _).
  assert (Hr : 0 <= grid_down (dt_minute t) < 60)
    by (pose proof Hin as Hin'; unfold GRID_MINUTES in Hin'; cbn [In] in Hin'; lia).
  split.
  - rewrite Em. apply grid_downs_nonempty. lia.
  - rewrite round_down_spec.
    rewrite date_mk, hour_mk, minute_mk, second_mk, microsecond_mk by lia.
    repeat split; auto; try lia.
    intros k Hk'. unfold GRID_MINUTES in Hk', Hin. cbn [In] in Hk', Hin. lia.
Qed.

(** ** The orchestrator: guards *)

(** C10: on an empty task list the call returns the empty list at once: no
    event happens (the clock is not read, the reorder service is not
    called), and the outcome is the same for every profile and every
    schedule category, also for those on which reading them would raise. *)
Theorem empty_task_list_returns_at_once (w : world) (p : profile) (schedule_type : string) :
  schedule_tasks w [] p schedule_type = ([], Ok []).
Proof. reflexivity. Qed.

(** C5: in the bounded-workday category, when the configured end of day
    (["17:00"] when the profile gives none) is not strictly after the
    quantized current time, a call on a non-empty task list returns the empty
    list, before the reorder service is called. *)
Theorem empty_window_guard (w : world) (parsed_tasks : list task) (p : profile)
  (work_end : pyval) (day_end : datetime) :
  parsed_tasks <> [] ->
  profile_work_end p = Ok work_end ->
  _time_to_dt (clock w) work_end = Ok day_end ->
  day_end <= _round_up_to_grid (clock w) ->
  schedule_tasks w parsed_tasks p "work-related" = ([ReadClock], Ok []).
Proof.
  intros Hne Hp Ht Hle.
  unfold schedule_tasks, schedule_placements.
  destruct parsed_tasks as [|t r]; [congruence|].
  unfold window_end. cbn [String.eqb Ascii.eqb Bool.eqb].
  rewrite Hp. cbn [bind]. rewrite Ht. cbn [bind].
  replace (day_end <=? _round_up_to_grid (clock w)) with true
    by (symmetry; apply Z.leb_le; exact Hle).
  reflexivity.
Qed.

Lemma empty_window_guard_witness :
  schedule_tasks (mkWorld (mk_datetime 100 17 50 12 55) None)
    [mkTask (Some (PStr "write report")) None None (Some (PInt 30)) None]
    (mkProfile None) "work-related" = ([ReadClock], Ok []).
Proof.
  apply (empty_window_guard _ _ _ (PStr "17:00") (mk_datetime 100 17 0 0 0)).
  - discriminate.
  - reflexivity.
  - reflexivity.
  - vm_compute. discriminate.
Defined.

(** ** Slots *)

Lemma fits_true start end_ occupied day_start day_end :
  _fits start end_ occupied day_start day_end = true ->
  day_start <= start /\ end_ <= day_end /\ start < end_
  /\ forall i, In i occupied -> overlaps start end_ i = false.
Proof.
  unfold _fits.
  destruct (start <? day_start) eqn:C1; [discriminate|].
  destruct (end_ >? day_end) eqn:C2; [discriminate|].
  destruct (start >=? end_) eqn:C3; [discriminate|].
  cbn [orb]. intros Hall.
  repeat split; try lia.
  intros i Hi. rewrite forallb_forall in Hall.
  specialize (Hall i Hi). now apply negb_true_iff in Hall.
Qed.

Lemma backward_scan_some n end_candidate dur occupied day_start deadline s e :
  backward_scan n end_candidate dur occupied day_start deadline = Some (s, e) ->
  e = s + dur /\ _fits s e occupied day_start deadline = true.
Proof.
  revert end_candidate.
  induction n as [|n IH]; intros ec; cbn [backward_scan]; [discriminate|].
  destruct (_fits (_round_up_to_grid (ec - dur)) _ occupied day_start deadline) eqn:F.
  - intros [= <- <-]. auto.
  - destruct (_ <=? day_start); [discriminate|]. apply IH.
Qed.

Lemma forward_scan_some n start_candidate dur occupied day_start day_end s e :
  forward_scan n start_candidate dur occupied day_start day_end = Some (s, e) ->
  e = s + dur /\ _fits s e occupied day_start day_end = true.
Proof.
  revert start_candidate.
  induction n as [|n IH]; intros sc; cbn [forward_scan]; [discriminate|].
  destruct (_fits sc (sc + dur) occupied day_start day_end) eqn:F.
  - intros [= <- <-]. auto.
  - destruct (_ >? day_end); [discriminate|]. apply IH.
Qed.

Lemma find_backward_slot_some deadline duration_min occupied day_start s e :
  _find_backward_slot deadline duration_min occupied day_start = Some (s, e) ->
  e = s + td_minutes duration_min /\ _fits s e occupied day_start deadline = true.
Proof. unfold _find_backward_slot. apply backward_scan_some. Qed.

Lemma find_forward_slot_some cursor duration_min occupied day_start day_end s e :
  _find_forward_slot cursor duration_min occupied day_start day_end = Some (s, e) ->
  e = s + td_minutes duration_min /\ _fits s e occupied day_start day_end = true.
Proof. unfold _find_forward_slot. apply forward_scan_some. Qed.

(** ** Stable sorting keeps the elements *)

Section SortMembers.
Context {A : Type} (key : A -> Z).

Lemma insert_by_in x y l : In y (insert_by key x l) <-> y = x \/ In y l.
Proof.
  induction l as [|z r IH]; cbn [insert_by In].
  - intuition.
  - destruct (key x <=? key z); cbn [In]; [intuition|].
    rewrite IH. intuition.
Qed.

Lemma sorted_by_in y l : In y (sorted_by key l) <-> In y l.
Proof.
  induction l as [|z r IH]; cbn [sorted_by In]; [tauto|].
  rewrite insert_by_in, IH. intuition.
Qed.
End SortMembers.

(** ** What every placement satisfies *)

Lemma split_tasks_spec now day_end tasks deadline_tasks normal_tasks :
  split_tasks now day_end tasks = Ok (deadline_tasks, normal_tasks) ->
  Forall (deadline_task_ok now day_end) deadline_tasks
  /\ Forall (fun t => resolved_deadline now t = Ok None) normal_tasks.
Proof.
  revert deadline_tasks normal_tasks.
  induction tasks as [|t r IH]; intros dts nts; cbn [split_tasks].
  - intros [= <- <-]. auto.
  - destruct (String.eqb (task_desc t) ""); [apply IH|].
    destruct (task_deadline_dt now (task_desc t) t) as [dl|] eqn:Hd; cbn [bind];
      [|discriminate].
    destruct (split_tasks now day_end r) as [[dts' nts']|]; cbn [bind]; [|discriminate].
    destruct (IH dts' nts' eq_refl) as [Hdl Hn].
    destruct dl as [d|]; intros [= <- <-]; split; auto.
    constructor; auto. exists d. auto.
Qed.

Lemma place_deadline_tasks_ok now start_from day_end deadline_tasks occupied placed :
  Forall (deadline_task_ok now day_end) deadline_tasks ->
  Forall (placed_ok now start_from day_end) placed ->
  Forall (placed_ok now start_from day_end)
    (snd (place_deadline_tasks start_from deadline_tasks occupied placed)).
Proof.
  revert occupied placed.
  induction deadline_tasks as [|[dl t] r IH]; intros occ placed Hd Hp;
    cbn [place_deadline_tasks]; [exact Hp|].
  inversion Hd as [|x l [d [Hres Hdl]] Hr]; subst. cbn [fst snd] in *.
  destruct (_find_backward_slot dl (_duration_minutes t) (_merge occ) start_from)
    as [[s e]|] eqn:Hslot; [|auto].
  apply IH; [exact Hr|].
  apply Forall_app. split; [exact Hp|]. constructor; [|constructor].
  apply find_backward_slot_some in Hslot. destruct Hslot as [He Hfit].
  apply fits_true in Hfit. destruct Hfit as (H1 & H2 & H3 & _).
  unfold placed_ok. cbn [pl_end pl_start pl_task pl_deadline].
  repeat split; auto; try lia.
  exists d. auto.
Qed.

Lemma place_normal_tasks_ok now start_from day_end normal_tasks cursor occupied placed :
  Forall (fun t => resolved_deadline now t = Ok None) normal_tasks ->
  Forall (placed_ok now start_from day_end) placed ->
  Forall (placed_ok now start_from day_end)
    (place_normal_tasks start_from day_end normal_tasks cursor occupied placed).
Proof.
  revert cursor occupied placed.
  induction normal_tasks as [|t r IH]; intros cursor occ placed Hn Hp;
    cbn [place_normal_tasks]; [exact Hp|].
  inversion Hn as [|x l Hres Hr]; subst.
  destruct (_find_forward_slot cursor (_duration_minutes t) occ start_from day_end)
    as [[s e]|] eqn:Hslot; [|exact Hp].
  assert (Hp' : Forall (placed_ok now start_from day_end)
                  (placed ++ [mkPlacement t None s e])).
  { apply Forall_app. split; [exact Hp|]. constructor; [|constructor].
    apply find_forward_slot_some in Hslot. destruct Hslot as [He Hfit].
    apply fits_true in Hfit. destruct Hfit as (H1 & H2 & H3 & _).
    unfold placed_ok. cbn [pl_end pl_start pl_task pl_deadline]. auto. }
  destruct (_ >=? day_end); [exact Hp'|].
  apply IH; assumption.
Qed.

Lemma place_all_ok now start_from day_end deadline_tasks normal_tasks :
  Forall (deadline_task_ok now day_end) deadline_tasks ->
  Forall (fun t => resolved_deadline now t = Ok None) normal_tasks ->
  Forall (placed_ok now start_from day_end)
    (place_all start_from day_end deadline_tasks normal_tasks).
Proof.
  intros Hd Hn. unfold place_all.
  pose proof (place_deadline_tasks_ok now start_from day_end
                (sorted_by fst deadline_tasks) [] []) as Hb.
  destruct (place_deadline_tasks start_from (sorted_by fst deadline_tasks) [] [])
    as [occ placed].
  apply place_normal_tasks_ok; [exact Hn|].
  apply Hb; [|constructor].
  apply Forall_forall. intros x Hx.
  rewrite Forall_forall in Hd. apply Hd.
  exact (proj1 (sorted_by_in fst x deadline_tasks) Hx).
Qed.

Lemma sort_keys_snd placed ks :
  sort_keys placed = Ok ks -> map snd ks = placed.
Proof.
  revert ks. induction placed as [|p r IH]; intros ks; cbn [sort_keys].
  - intros [= <-]. reflexivity.
  - destruct (strptime_IMp (_fmt (pl_start p))) as [k|]; cbn [bind]; [|discriminate].
    destruct (sort_keys r) as [ks'|]; cbn [bind]; [|discriminate].
    intros [= <-]. cbn [map snd]. now rewrite (IH ks' eq_refl).
Qed.

Lemma chronological_in placed out pl :
  chronological placed = Ok out -> In pl out -> In pl placed.
Proof.
  unfold chronological.
  destruct (sort_keys placed) as [ks|] eqn:Hk; cbn [bind]; [|discriminate].
  intros [= <-] Hin.
  apply in_map_iff in Hin. destruct Hin as [[k p] [<- Hin]].
  apply (proj1 (sorted_by_in fst (k, p) ks)) in Hin.
  rewrite <- (sort_keys_snd _ _ Hk).
  apply in_map_iff. exists (k, p). auto.
Qed.

(** Every entry of a produced schedule lies in a window that was resolved,
    and is a slot of its task's duration that respects its deadline. *)
Lemma schedule_placements_ok w parsed_tasks p schedule_type events placed pl :
  schedule_placements w parsed_tasks p schedule_type = (events, Ok placed) ->
  In pl placed ->
  exists day_end,
    window_end (clock w) (_round_up_to_grid (clock w)) p schedule_type = Ok (Some day_end)
    /\ placed_ok (clock w) (_round_up_to_grid (clock w)) day_end pl.
Proof.
  unfold schedule_placements.
  destruct parsed_tasks as [|t0 r0]; [intros [= <- <-] []|].
  destruct (window_end (clock w) (_round_up_to_grid (clock w)) p schedule_type)
    as [[day_end|]|]; [|intros [= <- <-] []|discriminate].
  intros [= <- Hrun] Hin.
  destruct (split_tasks (clock w) day_end (reordered w (t0 :: r0)))
    as [[dts nts]|] eqn:Hs; cbn [bind] in Hrun; [|discriminate].
  destruct (split_tasks_spec _ _ _ _ _ Hs) as [Hd Hn].
  exists day_end. split; [reflexivity|].
  pose proof (place_all_ok (clock w) (_round_up_to_grid (clock w)) day_end dts nts Hd Hn)
    as Hall.
  rewrite Forall_forall in Hall. apply Hall.
  eapply chronological_in; eassumption.
Qed.

(** ** Deadlines and durations of the placed tasks *)

(** C4: in a produced schedule, an entry whose task has a resolved deadline
    ends at or before the minimum of that deadline and the end of the
    window. *)
Theorem deadline_respected (w : world) (parsed_tasks : list task) (p : profile)
  (schedule_type : string) (events : list event) (placed : list placement)
  (pl : placement) (d : datetime) :
  schedule_placements w parsed_tasks p schedule_type = (events, Ok placed) ->
  In pl placed ->
  resolved_deadline (clock w) (pl_task pl) = Ok (Some d) ->
  exists day_end,
    window_end (clock w) (_round_up_to_grid (clock w)) p schedule_type = Ok (Some day_end)
    /\ pl_deadline pl = Some (Z.min d day_end)
    /\ pl_end pl <= Z.min d day_end.
Proof.
  intros Hrun Hin Hres.
  destruct (schedule_placements_ok _ _ _ _ _ _ _ Hrun Hin) as (day_end & Hw & Hok).
  exists day_end. split; [exact Hw|].
  destruct Hok as (_ & _ & _ & Hdl).
  destruct (pl_deadline pl) as [dl|].
  - destruct Hdl as (Hle & d' & Hres' & ->).
    rewrite Hres in Hres'. injection Hres' as <-. auto.
  - congruence.
Qed.

(** C6: in a produced schedule, the end of an entry minus its start is the
    duration of its task, which lies between 5 and 240 minutes: an integer
    duration clamped to that range, and 15, 30 or 60 minutes for the labels
    short, medium and long. *)
Theorem duration_fidelity (w : world) (parsed_tasks : list task) (p : profile)
  (schedule_type : string) (events : list event) (placed : list placement)
  (pl : placement) :
  schedule_placements w parsed_tasks p schedule_type = (events, Ok placed) ->
  In pl placed ->
  pl_end pl - pl_start pl = td_minutes (_duration_minutes (pl_task pl))
  /\ 5 <= _duration_minutes (pl_task pl) <= 240
  /\ (forall n, task_duration (pl_task pl) = Some (PInt n) ->
                _duration_minutes (pl_task pl) = Z.max 5 (Z.min n 240))
  /\ (forall s, task_duration (pl_task pl) = Some (PStr s) ->
        (lower (strip s) = "short" -> _duration_minutes (pl_task pl) = 15)
        /\ (lower (strip s) = "medium" -> _duration_minutes (pl_task pl) = 30)
        /\ (lower (strip s) = "long" -> _duration_minutes (pl_task pl) = 60)).
Proof.
  intros Hrun Hin.
  destruct (schedule_placements_ok _ _ _ _ _ _ _ Hrun Hin) as (day_end & _ & Hok).
  destruct Hok as (He & _).
  split; [lia|]. split; [unfold _duration_minutes; lia|]. split.
  - intros n Hn. unfold _duration_minutes. rewrite Hn. reflexivity.
  - intros s Hs. unfold _duration_minutes. rewrite Hs.
    cbn [get_default py_str].
    repeat split; intros ->; reflexivity.
Qed.

Lemma deadline_respected_witness :
  exists day_end,
    window_end (clock (world_at 7 50)) (_round_up_to_grid (clock (world_at 7 50)))
      no_profile "personal" = Ok (Some day_end)
    /\ pl_deadline (mkPlacement (deadline_task "standup" 30 "10:00")
                      (Some (mk_datetime 100 10 0 0 0))
                      (mk_datetime 100 9 30 0 0) (mk_datetime 100 10 0 0 0))
       = Some (Z.min (mk_datetime 100 10 0 0 0) day_end)
    /\ pl_end (mkPlacement (deadline_task "standup" 30 "10:00")
                 (Some (mk_datetime 100 10 0 0 0))
                 (mk_datetime 100 9 30 0 0) (mk_datetime 100 10 0 0 0))
       <= Z.min (mk_datetime 100 10 0 0 0) day_end.
Proof.
  apply (deadline_respected (world_at 7 50)
           [deadline_task "standup" 30 "10:00"; plain_task "email" 60]
           no_profile "personal" [ReadClock; CallReorder]
           [mkPlacement (plain_task "email" 60) None
              (mk_datetime 100 8 0 0 0) (mk_datetime 100 9 0 0 0);
            mkPlacement (deadline_task "standup" 30 "10:00")
              (Some (mk_datetime 100 10 0 0 0))
              (mk_datetime 100 9 30 0 0) (mk_datetime 100 10 0 0 0)]).
  - vm_compute. reflexivity.
  - right. left. reflexivity.
  - vm_compute. reflexivity.
Defined.

Lemma duration_fidelity_witness :
  pl_end (mkPlacement (plain_task "email" 60) None
            (mk_datetime 100 8 0 0 0) (mk_datetime 100 9 0 0 0))
  - pl_start (mkPlacement (plain_task "email" 60) None
                (mk_datetime 100 8 0 0 0) (mk_datetime 100 9 0 0 0))
  = td_minutes 60.
Proof.
  apply (duration_fidelity (world_at 7 50)
           [deadline_task "standup" 30 "10:00"; plain_task "email" 60]
           no_profile "personal" [ReadClock; CallReorder]
           [mkPlacement (plain_task "email" 60) None
              (mk_datetime 100 8 0 0 0) (mk_datetime 100 9 0 0 0);
            mkPlacement (deadline_task "standup" 30 "10:00")
              (Some (mk_datetime 100 10 0 0 0))
              (mk_datetime 100 9 30 0 0) (mk_datetime 100 10 0 0 0)]).
  - vm_compute. reflexivity.
  - left. reflexivity.
Defined.

(** ** Where the code departs from the specification *)

(** C1: the break recorded after a newly placed task is not tested against
    what is already occupied.  At 09:00, with a 30-minute task due at 10:00
    and a 30-minute task without deadline, the first is placed backward at
    09:30-10:00 and the second forward at 09:00-09:30, so the break of the
    second (09:30-09:35) overlaps the first: the two tasks follow each other
    without a break. *)
Theorem break_overlaps_placed_task :
  schedule_placements (world_at 9 0)
    [deadline_task "standup" 30 "10:00"; plain_task "email" 30]
    no_profile "personal"
  = ([ReadClock; CallReorder],
     Ok [mkPlacement (plain_task "email" 30) None
           (mk_datetime 100 9 0 0 0) (mk_datetime 100 9 30 0 0);
         mkPlacement (deadline_task "standup" 30 "10:00")
           (Some (mk_datetime 100 10 0 0 0))
           (mk_datetime 100 9 30 0 0) (mk_datetime 100 10 0 0 0)])
  /\ intervals_overlap
       (break_of (mkPlacement (plain_task "email" 30) None
                    (mk_datetime 100 9 0 0 0) (mk_datetime 100 9 30 0 0)))
       (slot_of (mkPlacement (deadline_task "standup" 30 "10:00")
                   (Some (mk_datetime 100 10 0 0 0))
                   (mk_datetime 100 9 30 0 0) (mk_datetime 100 10 0 0 0)))
     = true
  /\ schedule_tasks (world_at 9 0)
       [deadline_task "standup" 30 "10:00"; plain_task "email" 30]
       no_profile "personal"
     = ([ReadClock; CallReorder],
        Ok [mkPlaced "email" "9:00 AM" "9:30 AM";
            mkPlaced "standup" "9:30 AM" "10:00 AM"]).
Proof. repeat split; vm_compute; reflexivity. Qed.

(** C3: a deadline that passes the digit pattern but is no time of day
    aborts the call.  Whatever the current time and the profile, a task
    whose description says "by 13pm" (hour 25 after conversion), or whose
    deadline field is "25:00", makes [schedule_tasks] raise [ValueError]. *)
Theorem out_of_range_deadline_raises (now : datetime) (p : profile) :
  schedule_tasks (mkWorld now None) [plain_task "send report by 13pm" 30] p "personal"
  = ([ReadClock; CallReorder], Raise ValueError)
  /\ schedule_tasks (mkWorld now None) [deadline_task "send report" 30 "25:00"] p "personal"
     = ([ReadClock; CallReorder], Raise ValueError).
Proof. split; reflexivity. Qed.

(** C8: the final sort compares times of day, without the date.  At 22:00
    the personal window runs until 04:00 of the next day; of two two-hour
    tasks the first is placed at 22:00 and the second at 00:15 of the next
    day, and the returned list shows the second before the first. *)
Theorem output_not_chronological_across_midnight :
  schedule_placements (world_at 21 50)
    [plain_task "film" 120; plain_task "pack" 120] no_profile "personal"
  = ([ReadClock; CallReorder],
     Ok [mkPlacement (plain_task "pack" 120) None
           (mk_datetime 101 0 15 0 0) (mk_datetime 101 2 15 0 0);
         mkPlacement (plain_task "film" 120) None
           (mk_datetime 100 22 0 0 0) (mk_datetime 101 0 0 0 0)])
  /\ mk_datetime 100 22 0 0 0 < mk_datetime 101 0 15 0 0
  /\ schedule_tasks (world_at 21 50)
       [plain_task "film" 120; plain_task "pack" 120] no_profile "personal"
     = ([ReadClock; CallReorder],
        Ok [mkPlaced "pack" "12:15 AM" "2:15 AM";
            mkPlaced "film" "10:00 PM" "12:00 AM"]).
Proof. repeat split; vm_compute; reflexivity. Qed.

(** The placement that scenario A of the specification expects does not
    happen: from 09:00 the second task is not placed at 09:35-10:20. *)
Lemma scenario_A_second_task_not_at_0935 :
  _round_up_to_grid (clock (world_at 8 50)) = mk_datetime 100 9 0 0 0
  /\ window_end (clock (world_at 8 50)) (_round_up_to_grid (clock (world_at 8 50)))
       no_profile "personal" = Ok (Some (mk_datetime 100 15 0 0 0))
  /\ schedule_tasks (world_at 8 50)
       [plain_task "read" 30; plain_task "write" 45] no_profile "personal"
     <> ([ReadClock; CallReorder],
         Ok [mkPlaced "read" "9:00 AM" "9:30 AM";
             mkPlaced "write" "9:35 AM" "10:20 AM"]).
Proof.
  split; [vm_compute; reflexivity|].
  split; [vm_compute; reflexivity|].
  vm_compute. discriminate.
Qed.

(** ** Scenario A *)

Lemma fits_intro start end_ occupied day_start day_end :
  day_start <= start -> end_ <= day_end -> start < end_ ->
  (forall i, In i occupied -> end_ <= fst i \/ snd i <= start) ->
  _fits start end_ occupied day_start day_end = true.
Proof.
  intros H1 H2 H3 Hocc. unfold _fits.
  replace (start <? day_start) with false by (symmetry; apply Z.ltb_ge; lia).
  replace (end_ >? day_end) with false
    by (symmetry; rewrite Z.gtb_ltb; apply Z.ltb_ge; lia).
  replace (start >=? end_) with false
    by (symmetry; rewrite Z.geb_leb; apply Z.leb_gt; lia).
  cbn [orb]. apply forallb_forall. intros i Hi.
  unfold overlaps. rewrite negb_involutive. apply orb_true_iff.
  destruct (Hocc i Hi); [left; apply Z.leb_le | right; rewrite Z.geb_leb; apply Z.leb_le];
    assumption.
Qed.

Lemma forward_scan_first n start_candidate dur occupied day_start day_end :
  _fits start_candidate (start_candidate + dur) occupied day_start day_end = true ->
  forward_scan (S n) start_candidate dur occupied day_start day_end
  = Some (start_candidate, start_candidate + dur).
Proof. intros H. cbn [forward_scan]. rewrite H. reflexivity. Qed.

(** The formatted time depends on the hour and the minute only. *)
Lemma fmt_mk d h m :
  0 <= h < 24 -> 0 <= m < 60 ->
  _fmt (mk_datetime d h m 0 0) = _fmt (mk_datetime 0 h m 0 0).
Proof.
  intros Hh Hm. unfold _fmt.
  rewrite !hour_mk, !minute_mk by lia. reflexivity.
Qed.

Lemma round_up_mk d h m :
  0 <= h < 24 -> 0 <= m < 60 ->
  _round_up_to_grid (mk_datetime d h m 0 0) = mk_datetime d h 0 0 0 + td_minutes (grid_up m).
Proof.
  intros Hh Hm. rewrite round_up_spec.
  rewrite date_mk, hour_mk, minute_mk by lia. reflexivity.
Qed.

(** Settles the comparisons of timestamps that linear arithmetic decides. *)
Ltac settle_leb :=
  repeat match goal with
  | |- context [?a <=? ?b] =>
      first [ replace (a <=? b) with true by (symmetry; apply Z.leb_le; dt_arith)
            | replace (a <=? b) with false by (symmetry; apply Z.leb_gt; dt_arith) ]
  | |- context [?a <? ?b] =>
      first [ replace (a <? b) with true by (symmetry; apply Z.ltb_lt; dt_arith)
            | replace (a <? b) with false by (symmetry; apply Z.ltb_ge; dt_arith) ]
  end.

(** The forward phase on two tasks of 30 and 45 minutes, from 09:00 with
    nothing occupied. *)
Lemma forward_phase_scenario_A day t1 t2 :
  _duration_minutes t1 = 30 -> _duration_minutes t2 = 45 ->
  place_normal_tasks (mk_datetime day 9 0 0 0)
    (mk_datetime day 9 0 0 0 + td_hours PERSONAL_WINDOW_HOURS)
    [t1; t2] (mk_datetime day 9 0 0 0) [] []
  = [mkPlacement t1 None (mk_datetime day 9 0 0 0) (mk_datetime day 9 30 0 0);
     mkPlacement t2 None (mk_datetime day 9 45 0 0) (mk_datetime day 10 30 0 0)].
Proof.
  intros D1 D2.
  cbn [place_normal_tasks]. rewrite D1, D2.
  unfold _find_forward_slot at 1. rewrite Z.max_id.
  rewrite round_up_mk by lia. change (grid_up 0) with 0.
  replace (mk_datetime day 9 0 0 0 + td_minutes 0) with (mk_datetime day 9 0 0 0)
    by dt_arith.
  change SCAN_STEPS with (S 48).
  rewrite forward_scan_first
    by (apply fits_intro; [dt_arith | dt_arith | dt_arith | intros i []]).
  replace (mk_datetime day 9 0 0 0 + td_minutes 30) with (mk_datetime day 9 30 0 0)
    by dt_arith.
  replace (mk_datetime day 9 30 0 0 + td_minutes FORCED_BREAK_MIN)
    with (mk_datetime day 9 35 0 0) by dt_arith.
  rewrite Z.geb_leb. settle_leb.
  unfold _find_forward_slot.
  replace (Z.max (mk_datetime day 9 35 0 0) (mk_datetime day 9 0 0 0))
    with (mk_datetime day 9 35 0 0) by (symmetry; apply Z.max_l; dt_arith).
  rewrite round_up_mk by lia. change (grid_up 35) with 45.
  replace (mk_datetime day 9 0 0 0 + td_minutes 45) with (mk_datetime day 9 45 0 0)
    by dt_arith.
  assert (Hocc : _merge (_add_with_break [] (mk_datetime day 9 0 0 0)
                           (mk_datetime day 9 30 0 0))
                 = [(mk_datetime day 9 0 0 0, mk_datetime day 9 35 0 0)]).
  { unfold _add_with_break, _merge. cbn [app sorted_by insert_by fst snd].
    settle_leb. cbn [merge_runs]. settle_leb.
    rewrite Z.max_r by dt_arith. f_equal. f_equal. dt_arith. }
  rewrite Hocc. change SCAN_STEPS with (S 48).
  rewrite forward_scan_first.
  - cbn [app].
    replace (mk_datetime day 9 45 0 0 + td_minutes 45) with (mk_datetime day 10 30 0 0)
      by dt_arith.
    rewrite Z.geb_leb. settle_leb. reflexivity.
  - apply fits_intro; [dt_arith | dt_arith | dt_arith |].
    intros i [<-|[]]. right. cbn [snd]. dt_arith.
Qed.

(** C2 (amended): when the quantized current time is 09:00 and the window
    is the personal one (ending 15:00), and the reorder step leaves the list
    as it is, two deadline-free tasks of 30 and 45 minutes are placed at
    09:00-09:30 and at 09:45-10:30: after the 5-minute break, which ends at
    09:35, the start of the second task is rounded up to the next
    quarter-hour. *)
Theorem scenario_A (w : world) (p : profile) (t1 t2 : task) (day : Z) :
  _round_up_to_grid (clock w) = mk_datetime day 9 0 0 0 ->
  reordered w [t1; t2] = [t1; t2] ->
  task_desc t1 <> "" -> task_desc t2 <> "" ->
  resolved_deadline (clock w) t1 = Ok None ->
  resolved_deadline (clock w) t2 = Ok None ->
  _duration_minutes t1 = 30 -> _duration_minutes t2 = 45 ->
  window_end (clock w) (_round_up_to_grid (clock w)) p "personal"
  = Ok (Some (mk_datetime day 15 0 0 0))
  /\ schedule_placements w [t1; t2] p "personal"
     = ([ReadClock; CallReorder],
        Ok [mkPlacement t1 None (mk_datetime day 9 0 0 0) (mk_datetime day 9 30 0 0);
            mkPlacement t2 None (mk_datetime day 9 45 0 0) (mk_datetime day 10 30 0 0)])
  /\ schedule_tasks w [t1; t2] p "personal"
     = ([ReadClock; CallReorder],
        Ok [mkPlaced (task_desc t1) "9:00 AM" "9:30 AM";
            mkPlaced (task_desc t2) "9:45 AM" "10:30 AM"]).
Proof.
  intros Hsf Hre N1 N2 R1 R2 D1 D2.
  assert (Hw : window_end (clock w) (_round_up_to_grid (clock w)) p "personal"
               = Ok (Some (mk_datetime day 9 0 0 0 + td_hours PERSONAL_WINDOW_HOURS))).
  { unfold window_end. cbn [String.eqb Ascii.eqb Bool.eqb]. rewrite Hsf. reflexivity. }
  assert (Hrun : schedule_placements w [t1; t2] p "personal"
     = ([ReadClock; CallReorder],
        Ok [mkPlacement t1 None (mk_datetime day 9 0 0 0) (mk_datetime day 9 30 0 0);
            mkPlacement t2 None (mk_datetime day 9 45 0 0) (mk_datetime day 10 30 0 0)])).
  { unfold schedule_placements. rewrite Hw, Hre. f_equal.
    cbn [split_tasks].
    apply String.eqb_neq in N1, N2. rewrite N1, N2.
    unfold resolved_deadline in R1, R2. rewrite R1, R2. cbn [bind].
    unfold place_all. cbn [sorted_by place_deadline_tasks].
    change (_merge []) with (@nil interval). cbn [skip_occupied].
    rewrite Hsf, forward_phase_scenario_A by assumption.
    unfold chronological. cbn [sort_keys pl_start].
    rewrite (fmt_mk day 9 0), (fmt_mk day 9 45) by lia.
    reflexivity. }
  split; [|split].
  - rewrite Hw. do 2 f_equal. dt_arith.
  - exact Hrun.
  - unfold schedule_tasks. rewrite Hrun. cbn [bind map]. unfold render.
    cbn [pl_task pl_start pl_end].
    rewrite (fmt_mk day 9 0), (fmt_mk day 9 30), (fmt_mk day 9 45), (fmt_mk day 10 30) by lia.
    reflexivity.
Qed.

Lemma scenario_A_witness :
  schedule_tasks (world_at 8 50) [plain_task "read" 30; plain_task "write" 45]
    no_profile "personal"
  = ([ReadClock; CallReorder],
     Ok [mkPlaced "read" "9:00 AM" "9:30 AM";
         mkPlaced "write" "9:45 AM" "10:30 AM"]).
Proof.
  apply (scenario_A (world_at 8 50) no_profile
           (plain_task "read" 30) (plain_task "write" 45) 100).
  - vm_compute. reflexivity.
  - reflexivity.
  - discriminate.
  - discriminate.
  - vm_compute. reflexivity.
  - vm_compute. reflexivity.
  - reflexivity.
  - reflexivity.
Defined.

(** ** What the interval set guarantees *)

Lemma disjoint_sym i j : disjoint i j -> disjoint j i.
Proof. unfold disjoint. tauto. Qed.

Lemma covered_incl occ occ' i :
  (forall j, In j occ -> In j occ') -> covered occ i -> covered occ' i.
Proof. intros H (j & Hj & Hb). exists j. auto. Qed.

Lemma covered_trans occ occ' i :
  (forall j, In j occ -> covered occ' j) -> covered occ i -> covered occ' i.
Proof.
  intros H (j & Hj & H1 & H2).
  destruct (H j Hj) as (k & Hk & H3 & H4).
  exists k. repeat split; auto; lia.
Qed.

Lemma fits_disjoint start end_ occupied day_start day_end i :
  _fits start end_ occupied day_start day_end = true ->
  covered occupied i -> disjoint (start, end_) i.
Proof.
  intros Hfit (j & Hj & H1 & H2).
  apply fits_true in Hfit. destruct Hfit as (_ & _ & _ & Hocc).
  specialize (Hocc j Hj). unfold overlaps in Hocc.
  apply negb_false_iff, orb_true_iff in Hocc.
  unfold disjoint. cbn [fst snd].
  destruct Hocc as [Hc|Hc]; [apply Z.leb_le in Hc | rewrite Z.geb_leb in Hc; apply Z.leb_le in Hc];
    lia.
Qed.

(** The stable sort orders by key. *)
Section SortOrder.
Context {A : Type} (key : A -> Z).

Lemma insert_by_ordered x l : ordered_by key l -> ordered_by key (insert_by key x l).
Proof.
  induction l as [|y r IH]; cbn [insert_by ordered_by]; [auto|].
  intros [Hy Hr].
  destruct (key x <=? key y) eqn:C.
  - apply Z.leb_le in C. cbn [ordered_by]. repeat split; auto.
    constructor; [exact C|].
    eapply Forall_impl; [|exact Hy]. cbn. intros; lia.
  - apply Z.leb_gt in C. cbn [ordered_by]. split; [|auto].
    apply Forall_forall. intros z Hz.
    apply insert_by_in in Hz. destruct Hz as [->|Hz]; [lia|].
    rewrite Forall_forall in Hy. auto.
Qed.

Lemma sorted_by_ordered l : ordered_by key (sorted_by key l).
Proof.
  induction l as [|x r IH]; cbn [sorted_by]; [exact I|].
  now apply insert_by_ordered.
Qed.
End SortOrder.

Lemma merge_runs_covers occ :
  forall ls le,
    Forall (fun i => ls <= fst i) occ -> ordered_by fst occ ->
    forall i, i = (ls, le) \/ In i occ -> covered (merge_runs ls le occ) i.
Proof.
  induction occ as [|[s e] r IH]; intros ls le Hlow Hord i Hi; cbn [merge_runs].
  - destruct Hi as [->|[]]. exists (ls, le). cbn. intuition lia.
  - inversion Hlow as [|x l Hs Hr]; subst. cbn [fst] in Hs.
    destruct Hord as [Hsr Hord].
    destruct (s <=? le) eqn:C.
    + assert (Hrun : covered (merge_runs ls (Z.max le e) r) (ls, Z.max le e))
        by (apply IH; auto).
      destruct Hi as [->|[<-|Hi]].
      * destruct Hrun as (j & Hj & H1 & H2). exists j. cbn [fst snd] in *.
        repeat split; auto; lia.
      * destruct Hrun as (j & Hj & H1 & H2). exists j. cbn [fst snd] in *.
        repeat split; auto; lia.
      * apply IH; auto.
    + assert (Hlow' : Forall (fun i => s <= fst i) r)
        by (eapply Forall_impl; [|exact Hsr]; cbn; intros; lia).
      destruct Hi as [->|Hi].
      * exists (ls, le). cbn. intuition lia.
      * destruct (IH s e Hlow' Hord i) as (j & Hj & Hb).
        { destruct Hi as [<-|Hi]; auto. }
        exists j. cbn [In]. auto.
Qed.

(** Merging loses nothing: what was inside an interval still is. *)
Lemma merge_covers occupied i : covered occupied i -> covered (_merge occupied) i.
Proof.
  apply covered_trans. intros j Hj.
  unfold _merge.
  pose proof (sorted_by_ordered fst occupied) as Hord.
  apply (proj2 (sorted_by_in fst j occupied)) in Hj.
  destruct (sorted_by fst occupied) as [|[s e] r]; [destruct Hj|].
  destruct Hord as [Hs Hord].
  apply merge_runs_covers; auto.
  destruct Hj as [<-|Hj]; auto.
Qed.

(** ** Placed tasks do not overlap *)

Lemma FOP_snoc {A : Type} (R : A -> A -> Prop) l x :
  ForallOrdPairs R l -> Forall (fun a => R a x) l -> ForallOrdPairs R (l ++ [x]).
Proof.
  induction 1 as [|a l Ha Hl IH]; intros Hx; cbn [app].
  - constructor; constructor.
  - inversion Hx; subst. constructor; [|auto].
    apply Forall_app. split; auto.
Qed.

Lemma self_covered (occupied : list interval) i : In i occupied -> covered occupied i.
Proof. intros H. exists i. repeat split; auto; lia. Qed.

Lemma packed_add occupied occupied' placed t dl s e day_start day_end :
  packed occupied placed ->
  (forall i, covered occupied i -> covered occupied' i) ->
  _fits s e occupied' day_start day_end = true ->
  forall occupied'',
    (forall i, covered (_add_with_break occupied s e) i -> covered occupied'' i) ->
    packed occupied'' (placed ++ [mkPlacement t dl s e]).
Proof.
  intros [Hcov Hfop] Hmono Hfit occ'' Hmono'.
  split.
  - intros pl Hin. apply in_app_iff in Hin.
    destruct Hin as [Hin|[<-|[]]].
    + destruct (Hcov pl Hin) as [H1 H2].
      split; apply Hmono';
        (eapply covered_incl; [|eassumption]);
        intros j Hj; unfold _add_with_break; apply in_app_iff; auto.
    + split; apply Hmono', self_covered; unfold _add_with_break;
        apply in_app_iff; right; cbn; auto.
  - apply FOP_snoc; [exact Hfop|].
    apply Forall_forall. intros pl Hin.
    destruct (Hcov pl Hin) as [H1 H2].
    split; eapply fits_disjoint; try exact Hfit; apply Hmono; assumption.
Qed.

Lemma place_deadline_tasks_packed start_from deadline_tasks occupied placed :
  packed occupied placed ->
  packed (fst (place_deadline_tasks start_from deadline_tasks occupied placed))
         (snd (place_deadline_tasks start_from deadline_tasks occupied placed)).
Proof.
  revert occupied placed.
  induction deadline_tasks as [|[dl t] r IH]; intros occ placed Hp;
    cbn [place_deadline_tasks]; [exact Hp|].
  destruct (_find_backward_slot dl (_duration_minutes t) (_merge occ) start_from)
    as [[s e]|] eqn:Hslot; [|auto].
  apply IH.
  apply find_backward_slot_some in Hslot. destruct Hslot as [_ Hfit].
  apply (packed_add occ (_merge occ) placed t (Some dl) s e start_from dl Hp
           (merge_covers occ) Hfit (_add_with_break occ s e)).
  intros i Hi. exact Hi.
Qed.

Lemma place_normal_tasks_packed start_from day_end normal_tasks cursor occupied placed :
  packed occupied placed ->
  ForallOrdPairs avoids
    (place_normal_tasks start_from day_end normal_tasks cursor occupied placed).
Proof.
  revert cursor occupied placed.
  induction normal_tasks as [|t r IH]; intros cursor occ placed Hp;
    cbn [place_normal_tasks]; [exact (proj2 Hp)|].
  destruct (_find_forward_slot cursor (_duration_minutes t) occ start_from day_end)
    as [[s e]|] eqn:Hslot; [|exact (proj2 Hp)].
  apply find_forward_slot_some in Hslot. destruct Hslot as [_ Hfit].
  assert (Hp' : packed (_merge (_add_with_break occ s e))
                       (placed ++ [mkPlacement t None s e])).
  { apply (packed_add occ occ placed t None s e start_from day_end Hp
             (fun i Hi => Hi) Hfit (_merge (_add_with_break occ s e))).
    apply merge_covers. }
  destruct (_ >=? day_end); [exact (proj2 Hp')|].
  apply IH. exact Hp'.
Qed.

(** In the order of placement, every task avoids the tasks placed before
    it and their breaks. *)
Lemma place_all_avoids start_from day_end deadline_tasks normal_tasks :
  ForallOrdPairs avoids (place_all start_from day_end deadline_tasks normal_tasks).
Proof.
  unfold place_all.
  pose proof (place_deadline_tasks_packed start_from (sorted_by fst deadline_tasks) [] [])
    as Hb.
  destruct (place_deadline_tasks start_from (sorted_by fst deadline_tasks) [] [])
    as [occ placed].
  cbn [fst snd] in Hb.
  apply place_normal_tasks_packed.
  destruct Hb as [Hcov Hfop].
  - split; [intros pl []|constructor].
  - split; [|exact Hfop].
    intros pl Hin. destruct (Hcov pl Hin). split; apply merge_covers; assumption.
Qed.

Section SortPairs.
Context {A : Type} (key : A -> Z) (R : A -> A -> Prop).
Hypothesis R_sym : forall a b, R a b -> R b a.

Lemma insert_by_pairs x l :
  Forall (R x) l -> ForallOrdPairs R l -> ForallOrdPairs R (insert_by key x l).
Proof.
  induction l as [|y r IH]; cbn [insert_by]; intros Hx Hl.
  - constructor; constructor.
  - destruct (key x <=? key y); [constructor; assumption|].
    inversion Hx; subst. inversion Hl; subst.
    constructor; [|auto].
    apply Forall_forall. intros z Hz.
    apply insert_by_in in Hz. destruct Hz as [->|Hz]; [auto|].
    match goal with H : Forall (R y) r |- _ => rewrite Forall_forall in H; auto end.
Qed.

Lemma sorted_by_pairs l : ForallOrdPairs R l -> ForallOrdPairs R (sorted_by key l).
Proof.
  induction 1 as [|x r Hx Hr IH]; cbn [sorted_by]; [constructor|].
  apply insert_by_pairs; [|exact IH].
  apply Forall_forall. intros z Hz.
  apply (proj1 (sorted_by_in key z r)) in Hz.
  rewrite Forall_forall in Hx. auto.
Qed.
End SortPairs.

Lemma FOP_map {A B : Type} (f : A -> B) (R : B -> B -> Prop) l :
  ForallOrdPairs (fun a b => R (f a) (f b)) l <-> ForallOrdPairs R (map f l).
Proof.
  induction l as [|x r IH]; cbn [map]; split; intros H;
    try (constructor; fail); inversion H; subst; constructor;
    try (apply IH; assumption).
  - apply Forall_map. assumption.
  - apply Forall_map. assumption.
Qed.

Lemma FOP_impl {A : Type} (R R' : A -> A -> Prop) l :
  (forall a b, R a b -> R' a b) -> ForallOrdPairs R l -> ForallOrdPairs R' l.
Proof.
  intros Himp. induction 1 as [|a l Ha Hl IH]; constructor; [|exact IH].
  eapply Forall_impl; [|exact Ha]. apply Himp.
Qed.

Lemma chronological_pairs (R : placement -> placement -> Prop) placed out :
  (forall a b, R a b -> R b a) ->
  chronological placed = Ok out ->
  ForallOrdPairs R placed -> ForallOrdPairs R out.
Proof.
  intros Hsym. unfold chronological.
  destruct (sort_keys placed) as [ks|] eqn:Hk; cbn [bind]; [|discriminate].
  intros [= <-] Hp.
  apply (proj1 (FOP_map snd R (sorted_by fst ks))).
  apply sorted_by_pairs.
  - intros a b. apply Hsym.
  - apply (proj2 (FOP_map snd R ks)).
    rewrite (sort_keys_snd _ _ Hk). exact Hp.
Qed.

(** Of every produced schedule, the placed tasks themselves are pairwise
    disjoint; only a break can fall on a task that was placed before it. *)
Theorem placed_tasks_pairwise_disjoint (w : world) (parsed_tasks : list task)
  (p : profile) (schedule_type : string) (events : list event)
  (placed : list placement) :
  schedule_placements w parsed_tasks p schedule_type = (events, Ok placed) ->
  ForallOrdPairs tasks_disjoint placed.
Proof.
  unfold schedule_placements.
  destruct parsed_tasks as [|t0 r0]; [intros [= <- <-]; constructor|].
  destruct (window_end (clock w) (_round_up_to_grid (clock w)) p schedule_type)
    as [[day_end|]|]; [|intros [= <- <-]; constructor|discriminate].
  intros [= <- Hrun].
  destruct (split_tasks (clock w) day_end (reordered w (t0 :: r0)))
    as [[dts nts]|]; cbn [bind] in Hrun; [|discriminate].
  eapply chronological_pairs; [|exact Hrun|].
  - intros a b. apply disjoint_sym.
  - apply (FOP_impl avoids); [|apply place_all_avoids].
    intros a b [Hd _]. apply disjoint_sym. exact Hd.
Qed.

(** * Further properties of the code *)

(** ** The quantizers stay within a quarter of an hour *)

(** X2: rounding up yields a grid time at or after the start of the
    timestamp's minute and less than 15 minutes after it (so it can lie up
    to a minute before the timestamp itself, whose seconds are dropped);
    rounding down yields a grid time at or before the timestamp and less
    than 15 minutes before it. *)
Theorem quantizer_bounds (t : datetime) :
  on_grid (_round_up_to_grid t)
  /\ replace_second_microsecond t 0 0 <= _round_up_to_grid t
     < replace_second_microsecond t 0 0 + td_minutes 15
  /\ t - td_minutes 1 < _round_up_to_grid t
  /\ on_grid (_round_down_to_grid t)
  /\ _round_down_to_grid t <= t < _round_down_to_grid t + td_minutes 15.
Proof.
  pose proof (dt_hour_range t) as Hh. pose proof (dt_minute_range t) as Hm.
  pose proof (dt_second_range t) as Hs. pose proof (dt_microsecond_range t) as Hu.
  pose proof (dt_decompose t) as Ht.
  assert (Hup : dt_minute t <= grid_up (dt_minute t) < dt_minute t + 15).
  { unfold grid_up.
    destruct (dt_minute t <=? 0) eqn:C0;
      [|destruct (dt_minute t <=? 15) eqn:C1;
        [|destruct (dt_minute t <=? 30) eqn:C2;
          [|destruct (dt_minute t <=? 45) eqn:C3]]]; lia. }
  destruct (grid_down_cases (dt_minute t) Hm) as (_ & Hdown & _).
  split; [apply round_up_on_grid|].
  split; [|split; [|split; [apply round_down_on_grid|]]].
  - rewrite round_up_spec. unfold replace_second_microsecond. dt_arith.
  - rewrite round_up_spec. dt_arith.
  - rewrite round_down_spec. dt_arith.
Qed.

(** ** Grid times are the multiples of a quarter of an hour *)

Lemma on_grid_iff_multiple t : on_grid t <-> t mod td_minutes 15 = 0.
Proof.
  split.
  - intros (Eu & Es & Hin).
    rewrite (dt_decompose t), Es, Eu.
    assert (Hq : exists q, dt_minute t = 15 * q)
      by (unfold GRID_MINUTES in Hin; cbn [In] in Hin;
          destruct Hin as [<-|[<-|[<-|[<-|[]]]]];
          [exists 0|exists 1|exists 2|exists 3]; reflexivity).
    destruct Hq as [q ->].
    replace (mk_datetime (dt_date t) (dt_hour t) (15 * q) 0 0)
      with ((dt_date t * 96 + dt_hour t * 4 + q) * td_minutes 15) by dt_arith.
    apply Z.mod_mul. dt_arith.
  - intros Hmod.
    assert (Hpos : td_minutes 15 <> 0) by dt_arith.
    pose proof (Z.div_mod t (td_minutes 15) Hpos) as Hdiv. rewrite Hmod in Hdiv.
    set (q := t / td_minutes 15) in *.
    pose proof (Z.div_mod q 4 ltac:(lia)) as Hq4.
    pose proof (Z.mod_pos_bound q 4 ltac:(lia)) as Hb.
    pose proof (Z.div_mod (q / 4) 24 ltac:(lia)) as Hq24.
    pose proof (Z.mod_pos_bound (q / 4) 24 ltac:(lia)) as Hh.
    assert (Ht : t = mk_datetime (q / 4 / 24) ((q / 4) mod 24) (15 * (q mod 4)) 0 0)
      by dt_arith.
    rewrite Ht. unfold on_grid.
    rewrite minute_mk, second_mk, microsecond_mk by lia.
    repeat split; try reflexivity.
    unfold GRID_MINUTES. cbn [In].
    assert (Hc : q mod 4 = 0 \/ q mod 4 = 1 \/ q mod 4 = 2 \/ q mod 4 = 3) by lia.
    destruct Hc as [-> | [-> | [-> | ->]]]; cbn; auto.
Qed.

Lemma on_grid_step t k : on_grid t -> on_grid (t + td_minutes (15 * k)).
Proof.
  rewrite !on_grid_iff_multiple. intros H.
  replace (t + td_minutes (15 * k)) with (t + k * td_minutes 15) by dt_arith.
  rewrite Z.mod_add by dt_arith. exact H.
Qed.

(** ** The forward scan is a first-fit search *)

Lemma fits_beyond_window start end_ occupied day_start day_end :
  day_end < end_ -> _fits start end_ occupied day_start day_end = false.
Proof.
  intros H. unfold _fits.
  replace (end_ >? day_end) with true
    by (symmetry; rewrite Z.gtb_ltb; apply Z.ltb_lt; exact H).
  rewrite orb_true_r. reflexivity.
Qed.

Lemma forward_scan_first_fit n :
  forall start_candidate dur occupied day_start day_end,
    0 <= dur ->
    match forward_scan n start_candidate dur occupied day_start day_end with
    | Some (s, e) =>
        exists k, (k < n)%nat
          /\ s = start_candidate + td_minutes (15 * Z.of_nat k)
          /\ e = s + dur
          /\ _fits s e occupied day_start day_end = true
          /\ forall j, (j < k)%nat ->
               _fits (start_candidate + td_minutes (15 * Z.of_nat j))
                     (start_candidate + td_minutes (15 * Z.of_nat j) + dur)
                     occupied day_start day_end = false
    | None =>
        forall j, (j < n)%nat ->
          _fits (start_candidate + td_minutes (15 * Z.of_nat j))
                (start_candidate + td_minutes (15 * Z.of_nat j) + dur)
                occupied day_start day_end = false
    end.
Proof.
  induction n as [|n IH]; intros sc dur occ ds de Hdur; cbn [forward_scan].
  - intros j Hj. lia.
  - destruct (_fits sc (sc + dur) occ ds de) eqn:F.
    + exists 0%nat. repeat split; try lia.
      * dt_arith.
      * replace (sc + td_minutes (15 * Z.of_nat 0)) with sc by dt_arith. exact F.
    + assert (Hzero : forall j, j = 0%nat ->
                _fits (sc + td_minutes (15 * Z.of_nat j))
                  (sc + td_minutes (15 * Z.of_nat j) + dur) occ ds de = false).
      { intros j ->. replace (sc + td_minutes (15 * Z.of_nat 0)) with sc by dt_arith.
        exact F. }
      destruct (sc + td_minutes 15 + dur >? de) eqn:C.
      * intros j Hj. destruct j as [|j]; [auto|].
        apply fits_beyond_window.
        rewrite Z.gtb_ltb in C. apply Z.ltb_lt in C. dt_arith.
      * specialize (IH (sc + td_minutes 15) dur occ ds de Hdur).
        destruct (forward_scan n (sc + td_minutes 15) dur occ ds de) as [[s e]|].
        -- destruct IH as (k & Hk & Hs & He & Hfit & Hbefore).
           exists (S k). repeat split; try lia; auto.
           ++ rewrite Hs. dt_arith.
           ++ intros j Hj. destruct j as [|j]; [auto|].
              replace (sc + td_minutes (15 * Z.of_nat (S j)))
                with (sc + td_minutes 15 + td_minutes (15 * Z.of_nat j)) by dt_arith.
              apply Hbefore. lia.
        -- intros j Hj. destruct j as [|j]; [auto|].
           replace (sc + td_minutes (15 * Z.of_nat (S j)))
             with (sc + td_minutes 15 + td_minutes (15 * Z.of_nat j)) by dt_arith.
           apply IH. lia.
Qed.

Lemma find_forward_slot_spec (cursor : datetime) (duration_min : Z)
  (occupied : list interval) (day_start day_end : datetime) :
  0 <= duration_min ->
  match _find_forward_slot cursor duration_min occupied day_start day_end with
  | Some (s, e) =>
      exists k, (k < 49)%nat
        /\ s = forward_candidate cursor day_start k
        /\ e = s + td_minutes duration_min
        /\ _fits s e occupied day_start day_end = true
        /\ forall j, (j < k)%nat ->
             _fits (forward_candidate cursor day_start j)
                   (forward_candidate cursor day_start j + td_minutes duration_min)
                   occupied day_start day_end = false
  | None =>
      forall j, (j < 49)%nat ->
        _fits (forward_candidate cursor day_start j)
              (forward_candidate cursor day_start j + td_minutes duration_min)
              occupied day_start day_end = false
  end.
Proof.
  intros Hdur. unfold _find_forward_slot, forward_candidate.
  apply (forward_scan_first_fit SCAN_STEPS). dt_arith.
Qed.

(** X6: [_find_forward_slot] is a first-fit search over the 49 grid
    candidates that start at the rounded cursor: it returns the earliest
    candidate that fits, with the end one duration later, and it returns
    nothing only when none of the 49 fits. *)
Theorem find_forward_slot_first_fit (cursor : datetime) (duration_min : Z)
  (occupied : list interval) (day_start day_end : datetime) :
  0 <= duration_min ->
  match _find_forward_slot cursor duration_min occupied day_start day_end with
  | Some (s, e) =>
      exists k, (k < 49)%nat
        /\ s = forward_candidate cursor day_start k
        /\ e = s + td_minutes duration_min
        /\ _fits s e occupied day_start day_end = true
        /\ forall j, (j < k)%nat ->
             _fits (forward_candidate cursor day_start j)
                   (forward_candidate cursor day_start j + td_minutes duration_min)
                   occupied day_start day_end = false
  | None =>
      forall j, (j < 49)%nat ->
        _fits (forward_candidate cursor day_start j)
              (forward_candidate cursor day_start j + td_minutes duration_min)
              occupied day_start day_end = false
  end.
Proof. apply find_forward_slot_spec. Qed.

Lemma find_forward_slot_first_fit_witness :
  match _find_forward_slot (mk_datetime 100 9 35 0 0) 45
          [(mk_datetime 100 9 0 0 0, mk_datetime 100 9 35 0 0)]
          (mk_datetime 100 9 0 0 0) (mk_datetime 100 15 0 0 0) with
  | Some (s, e) =>
      exists k, (k < 49)%nat
        /\ s = forward_candidate (mk_datetime 100 9 35 0 0) (mk_datetime 100 9 0 0 0) k
        /\ e = s + td_minutes 45
        /\ _fits s e [(mk_datetime 100 9 0 0 0, mk_datetime 100 9 35 0 0)]
             (mk_datetime 100 9 0 0 0) (mk_datetime 100 15 0 0 0) = true
        /\ forall j, (j < k)%nat ->
             _fits (forward_candidate (mk_datetime 100 9 35 0 0) (mk_datetime 100 9 0 0 0) j)
                   (forward_candidate (mk_datetime 100 9 35 0 0) (mk_datetime 100 9 0 0 0) j
                    + td_minutes 45)
                   [(mk_datetime 100 9 0 0 0, mk_datetime 100 9 35 0 0)]
                   (mk_datetime 100 9 0 0 0) (mk_datetime 100 15 0 0 0) = false
  | None =>
      forall j, (j < 49)%nat ->
        _fits (forward_candidate (mk_datetime 100 9 35 0 0) (mk_datetime 100 9 0 0 0) j)
              (forward_candidate (mk_datetime 100 9 35 0 0) (mk_datetime 100 9 0 0 0) j
               + td_minutes 45)
              [(mk_datetime 100 9 0 0 0, mk_datetime 100 9 35 0 0)]
              (mk_datetime 100 9 0 0 0) (mk_datetime 100 15 0 0 0) = false
  end.
Proof.
  apply (find_forward_slot_first_fit (mk_datetime 100 9 35 0 0) 45
           [(mk_datetime 100 9 0 0 0, mk_datetime 100 9 35 0 0)]
           (mk_datetime 100 9 0 0 0) (mk_datetime 100 15 0 0 0)).
  lia.
Defined.

(** ** Where the entries of a schedule come from *)

Lemma place_deadline_tasks_found start_from day_end deadline_tasks occupied placed :
  Forall (found_by_scan start_from day_end) placed ->
  Forall (found_by_scan start_from day_end)
    (snd (place_deadline_tasks start_from deadline_tasks occupied placed)).
Proof.
  revert occupied placed.
  induction deadline_tasks as [|[dl t] r IH]; intros occ placed Hp;
    cbn [place_deadline_tasks]; [exact Hp|].
  destruct (_find_backward_slot dl (_duration_minutes t) (_merge occ) start_from)
    as [[s e]|] eqn:Hslot; [|auto].
  apply IH. apply Forall_app. split; [exact Hp|].
  constructor; [|constructor].
  left. exists dl, (_merge occ). cbn [pl_deadline pl_task pl_start pl_end]. auto.
Qed.

Lemma place_normal_tasks_found start_from day_end normal_tasks cursor occupied placed :
  Forall (found_by_scan start_from day_end) placed ->
  Forall (found_by_scan start_from day_end)
    (place_normal_tasks start_from day_end normal_tasks cursor occupied placed).
Proof.
  revert cursor occupied placed.
  induction normal_tasks as [|t r IH]; intros cursor occ placed Hp;
    cbn [place_normal_tasks]; [exact Hp|].
  destruct (_find_forward_slot cursor (_duration_minutes t) occ start_from day_end)
    as [[s e]|] eqn:Hslot; [|exact Hp].
  assert (Hp' : Forall (found_by_scan start_from day_end)
                  (placed ++ [mkPlacement t None s e])).
  { apply Forall_app. split; [exact Hp|]. constructor; [|constructor].
    right. exists cursor, occ. cbn [pl_deadline pl_task pl_start pl_end]. auto. }
  destruct (_ >=? day_end); [exact Hp'|].
  apply IH. exact Hp'.
Qed.

Lemma place_all_found start_from day_end deadline_tasks normal_tasks :
  Forall (found_by_scan start_from day_end)
    (place_all start_from day_end deadline_tasks normal_tasks).
Proof.
  unfold place_all.
  pose proof (place_deadline_tasks_found start_from day_end
                (sorted_by fst deadline_tasks) [] [] (Forall_nil _)) as Hb.
  destruct (place_deadline_tasks start_from (sorted_by fst deadline_tasks) [] [])
    as [occ placed].
  apply place_normal_tasks_found. exact Hb.
Qed.

(** The stages of a call that produced a schedule. *)
Lemma schedule_placements_stages w parsed_tasks p schedule_type events placed :
  schedule_placements w parsed_tasks p schedule_type = (events, Ok placed) ->
  placed = []
  \/ exists day_end deadline_tasks normal_tasks,
       window_end (clock w) (_round_up_to_grid (clock w)) p schedule_type
       = Ok (Some day_end)
       /\ split_tasks (clock w) day_end (reordered w parsed_tasks)
          = Ok (deadline_tasks, normal_tasks)
       /\ chronological
            (place_all (_round_up_to_grid (clock w)) day_end deadline_tasks normal_tasks)
          = Ok placed.
Proof.
  unfold schedule_placements.
  destruct parsed_tasks as [|t0 r0]; [intros [= <- <-]; auto|].
  destruct (window_end (clock w) (_round_up_to_grid (clock w)) p schedule_type)
    as [[day_end|]|]; [|intros [= <- <-]; auto|discriminate].
  intros [= <- Hrun].
  destruct (split_tasks (clock w) day_end (reordered w (t0 :: r0)))
    as [[dts nts]|] eqn:Hs; cbn [bind] in Hrun; [|discriminate].
  right. exists day_end, dts, nts. auto.
Qed.

Lemma backward_scan_on_grid n end_candidate dur occupied day_start deadline s e :
  backward_scan n end_candidate dur occupied day_start deadline = Some (s, e) ->
  on_grid s.
Proof.
  revert end_candidate.
  induction n as [|n IH]; intros ec; cbn [backward_scan]; [discriminate|].
  destruct (_fits (_round_up_to_grid (ec - dur)) _ occupied day_start deadline) eqn:F.
  - intros [= <- _]. apply round_up_on_grid.
  - destruct (_ <=? day_start); [discriminate|]. apply IH.
Qed.

Lemma find_backward_slot_on_grid deadline duration_min occupied day_start s e :
  _find_backward_slot deadline duration_min occupied day_start = Some (s, e) ->
  on_grid s.
Proof. unfold _find_backward_slot. apply backward_scan_on_grid. Qed.

Lemma find_forward_slot_on_grid cursor duration_min occupied day_start day_end s e :
  0 <= duration_min ->
  _find_forward_slot cursor duration_min occupied day_start day_end = Some (s, e) ->
  on_grid s.
Proof.
  intros Hdur H.
  pose proof (find_forward_slot_spec cursor duration_min occupied day_start day_end Hdur)
    as Hff.
  rewrite H in Hff. destruct Hff as (k & _ & Hs & _).
  rewrite Hs. unfold forward_candidate. apply on_grid_step, round_up_on_grid.
Qed.

Lemma found_by_scan_on_grid start_from day_end pl :
  found_by_scan start_from day_end pl -> on_grid (pl_start pl).
Proof.
  intros [(dl & occ & _ & H)|(cursor & occ & _ & H)].
  - eapply find_backward_slot_on_grid. exact H.
  - eapply find_forward_slot_on_grid; [|exact H].
    unfold _duration_minutes. lia.
Qed.

Lemma placement_bounds (w : world) (parsed_tasks : list task)
  (p : profile) (schedule_type : string) (events : list event)
  (placed : list placement) (pl : placement) :
  schedule_placements w parsed_tasks p schedule_type = (events, Ok placed) ->
  In pl placed ->
  exists day_end,
    window_end (clock w) (_round_up_to_grid (clock w)) p schedule_type = Ok (Some day_end)
    /\ _round_up_to_grid (clock w) <= pl_start pl
    /\ pl_start pl < pl_end pl
    /\ pl_end pl <= day_end
    /\ on_grid (pl_start pl).
Proof.
  intros Hrun Hin.
  destruct (schedule_placements_ok _ _ _ _ _ _ _ Hrun Hin) as (day_end & Hw & Hok).
  exists day_end. split; [exact Hw|].
  destruct Hok as (He & Hs & Hde & _).
  assert (Hdur : 5 <= _duration_minutes (pl_task pl)) by (unfold _duration_minutes; lia).
  split; [exact Hs|]. split; [dt_arith|]. split; [exact Hde|].
  destruct (schedule_placements_stages _ _ _ _ _ _ Hrun) as [->|(de & dts & nts & _ & _ & Hc)];
    [destruct Hin|].
  pose proof (place_all_found (_round_up_to_grid (clock w)) de dts nts) as Hall.
  rewrite Forall_forall in Hall.
  apply (found_by_scan_on_grid (_round_up_to_grid (clock w)) de).
  apply Hall. eapply chronological_in; eassumption.
Qed.

(** X1: every entry of a produced schedule starts at or after the
    quantized current time, ends at or before the end of the window, is not
    empty, and starts on the quarter-hour grid. *)
Theorem placements_within_window_on_grid (w : world) (parsed_tasks : list task)
  (p : profile) (schedule_type : string) (events : list event)
  (placed : list placement) (pl : placement) :
  schedule_placements w parsed_tasks p schedule_type = (events, Ok placed) ->
  In pl placed ->
  exists day_end,
    window_end (clock w) (_round_up_to_grid (clock w)) p schedule_type = Ok (Some day_end)
    /\ _round_up_to_grid (clock w) <= pl_start pl
    /\ pl_start pl < pl_end pl
    /\ pl_end pl <= day_end
    /\ on_grid (pl_start pl).
Proof. apply placement_bounds. Qed.

Lemma placements_within_window_on_grid_witness :
  exists day_end,
    window_end (clock (world_at 7 50)) (_round_up_to_grid (clock (world_at 7 50)))
      no_profile "personal" = Ok (Some day_end)
    /\ _round_up_to_grid (clock (world_at 7 50)) <= mk_datetime 100 9 30 0 0
    /\ mk_datetime 100 9 30 0 0 < mk_datetime 100 10 0 0 0
    /\ mk_datetime 100 10 0 0 0 <= day_end
    /\ on_grid (mk_datetime 100 9 30 0 0).
Proof.
  apply (placements_within_window_on_grid (world_at 7 50)
           [deadline_task "standup" 30 "10:00"; plain_task "email" 60]
           no_profile "personal" [ReadClock; CallReorder]
           [mkPlacement (plain_task "email" 60) None
              (mk_datetime 100 8 0 0 0) (mk_datetime 100 9 0 0 0);
            mkPlacement (deadline_task "standup" 30 "10:00")
              (Some (mk_datetime 100 10 0 0 0))
              (mk_datetime 100 9 30 0 0) (mk_datetime 100 10 0 0 0)]
           (mkPlacement (deadline_task "standup" 30 "10:00")
              (Some (mk_datetime 100 10 0 0 0))
              (mk_datetime 100 9 30 0 0) (mk_datetime 100 10 0 0 0))).
  - vm_compute. reflexivity.
  - right. left. reflexivity.
Defined.

(** ** The canonical form of the interval set *)

Lemma merge_runs_head ls le occ :
  exists le' rest, merge_runs ls le occ = (ls, le') :: rest.
Proof.
  revert ls le. induction occ as [|[s e] r IH]; intros ls le; cbn [merge_runs].
  - eauto.
  - destruct (s <=? le); [apply IH | eauto].
Qed.

Lemma merge_runs_separated occ : forall ls le, separated (merge_runs ls le occ).
Proof.
  induction occ as [|[s e] r IH]; intros ls le; cbn [merge_runs].
  - cbn. auto.
  - destruct (s <=? le) eqn:C; [apply IH|].
    apply Z.leb_gt in C.
    destruct (merge_runs_head s e r) as (le' & rest & Hhd).
    pose proof (IH s e) as Hsep. rewrite Hhd in *.
    cbn [separated fst snd] in *. auto.
Qed.

Lemma merge_runs_ordered occ :
  forall ls le,
    Forall (fun i => ls <= fst i) occ -> ordered_by fst occ ->
    Forall (fun i => ls <= fst i) (merge_runs ls le occ)
    /\ ordered_by fst (merge_runs ls le occ).
Proof.
  induction occ as [|[s e] r IH]; intros ls le Hlow Hord; cbn [merge_runs].
  - cbn. repeat split; auto. constructor; [cbn; lia|constructor].
  - inversion Hlow as [|x l Hs Hr]; subst. cbn [fst] in Hs.
    destruct Hord as [Hsr Hord].
    destruct (s <=? le).
    + apply IH; auto.
    + assert (Hlow' : Forall (fun i => s <= fst i) r)
        by (eapply Forall_impl; [|exact Hsr]; cbn; intros; lia).
      destruct (IH s e Hlow' Hord) as [H1 H2].
      split.
      * constructor; [cbn; lia|].
        eapply Forall_impl; [|exact H1]. cbn. intros; lia.
      * cbn [ordered_by fst]. split; [|exact H2].
        eapply Forall_impl; [|exact H1]. cbn. intros; lia.
Qed.

Lemma merge_runs_busy occ :
  forall ls le x,
    Forall (fun i => ls <= fst i) occ -> ordered_by fst occ ->
    busy (merge_runs ls le occ) x -> busy ((ls, le) :: occ) x.
Proof.
  induction occ as [|[s e] r IH]; intros ls le x Hlow Hord; cbn [merge_runs].
  - auto.
  - inversion Hlow as [|y l Hs Hr]; subst. cbn [fst] in Hs.
    destruct Hord as [Hsr Hord].
    destruct (s <=? le) eqn:C.
    + apply Z.leb_le in C. intros Hb.
      apply IH in Hb; auto.
      destruct Hb as (i & [<-|Hi] & Hx).
      * cbn [fst snd] in Hx.
        destruct (Z_lt_le_dec x le).
        -- exists (ls, le). cbn. intuition lia.
        -- exists (s, e). cbn. intuition lia.
      * exists i. cbn [In]. auto.
    + intros (i & [<-|Hi] & Hx).
      * exists (ls, le). cbn [In]. auto.
      * assert (Hlow' : Forall (fun i => s <= fst i) r)
          by (eapply Forall_impl; [|exact Hsr]; cbn; intros; lia).
        destruct (IH s e x Hlow' Hord) as (j & Hj & Hjx).
        { exists i. auto. }
        exists j. cbn [In] in *. tauto.
Qed.

Lemma merge_canonical (occupied : list interval) :
  (forall x, busy (_merge occupied) x <-> busy occupied x)
  /\ ordered_by fst (_merge occupied)
  /\ separated (_merge occupied).
Proof.
  pose proof (sorted_by_ordered fst occupied) as Hord.
  split; [|split].
  - intros x. split.
    + unfold _merge.
      pose proof (fun j => proj1 (sorted_by_in fst j occupied)) as Hin.
      destruct (sorted_by fst occupied) as [|[s e] r]; [intros (i & [] & _)|].
      destruct Hord as [Hs Hord]. intros Hb.
      apply merge_runs_busy in Hb; auto.
      destruct Hb as (i & Hi & Hx). exists i. auto.
    + intros (i & Hi & Hx).
      destruct (merge_covers occupied i (self_covered occupied i Hi)) as (j & Hj & H1 & H2).
      exists j. split; [exact Hj|lia].
  - unfold _merge.
    destruct (sorted_by fst occupied) as [|[s e] r]; [exact I|].
    destruct Hord as [Hs Hord]. apply merge_runs_ordered; auto.
  - unfold _merge.
    destruct (sorted_by fst occupied) as [|[s e] r]; [exact I|].
    apply merge_runs_separated.
Qed.

(** X3: merging changes the shape of the interval set, not the time it
    occupies: a point in time is inside an interval of the merged set exactly
    when it is inside an interval of the given set; and the merged set is in
    canonical form, ascending by start with every interval starting strictly
    after the end of the one before. *)
Theorem merge_keeps_busy_time (occupied : list interval) :
  (forall x, busy (_merge occupied) x <-> busy occupied x)
  /\ ordered_by fst (_merge occupied)
  /\ separated (_merge occupied).
Proof. apply merge_canonical. Qed.

Lemma insert_by_front {A : Type} (key : A -> Z) x l :
  Forall (fun y => key x <= key y) l -> insert_by key x l = x :: l.
Proof.
  destruct l as [|y r]; [reflexivity|].
  intros H. inversion H; subst. cbn [insert_by].
  replace (key x <=? key y) with true by (symmetry; apply Z.leb_le; assumption).
  reflexivity.
Qed.

Lemma sorted_by_fixed {A : Type} (key : A -> Z) l :
  ordered_by key l -> sorted_by key l = l.
Proof.
  induction l as [|x r IH]; [reflexivity|].
  intros [Hx Hr]. cbn [sorted_by]. rewrite IH by exact Hr.
  apply insert_by_front. exact Hx.
Qed.

Lemma merge_runs_fixed occ :
  forall ls le,
    separated ((ls, le) :: occ) -> merge_runs ls le occ = (ls, le) :: occ.
Proof.
  induction occ as [|[s e] r IH]; intros ls le Hsep; [reflexivity|].
  cbn [merge_runs]. destruct Hsep as [Hlt Hsep]. cbn [fst snd] in Hlt.
  replace (s <=? le) with false by (symmetry; apply Z.leb_gt; exact Hlt).
  rewrite IH by exact Hsep. reflexivity.
Qed.

(** X4: merging is idempotent: a merged set is left as it is. *)
Theorem merge_idempotent (occupied : list interval) :
  _merge (_merge occupied) = _merge occupied.
Proof.
  destruct (merge_canonical occupied) as (_ & Hord & Hsep).
  unfold _merge at 1. rewrite sorted_by_fixed by exact Hord.
  destruct (_merge occupied) as [|[s e] r]; [reflexivity|].
  apply merge_runs_fixed. exact Hsep.
Qed.

(** ** The cursor after the skip loop *)

Lemma skip_occupied_before cursor occ :
  Forall (fun i => cursor < fst i) occ -> skip_occupied cursor occ = cursor.
Proof.
  induction occ as [|[s e] r IH]; [reflexivity|].
  intros H. inversion H as [|x l Hs Hr]; subst. cbn [fst] in Hs.
  cbn [skip_occupied].
  replace (s <=? cursor) with false by (symmetry; apply Z.leb_gt; exact Hs).
  cbn [andb]. apply IH. exact Hr.
Qed.

Lemma skip_occupied_ge cursor occ : cursor <= skip_occupied cursor occ.
Proof.
  revert cursor. induction occ as [|[s e] r IH]; intros cursor; cbn [skip_occupied]; [lia|].
  destruct ((s <=? cursor) && (cursor <? e)) eqn:C.
  - apply andb_true_iff in C. destruct C as [_ C]. apply Z.ltb_lt in C.
    specialize (IH e). lia.
  - apply IH.
Qed.

Lemma separated_after (i : interval) occ :
  ordered_by fst (i :: occ) -> separated (i :: occ) ->
  Forall (fun j => snd i < fst j) occ.
Proof.
  intros [_ Hord] [Hlt _].
  destruct occ as [|j r]; [constructor|].
  destruct Hord as [Hj _].
  constructor; [exact Hlt|].
  eapply Forall_impl; [|exact Hj]. cbn. intros k Hk. lia.
Qed.

Lemma skip_occupied_free occ :
  forall cursor,
    ordered_by fst occ -> separated occ ->
    forall i, In i occ ->
      ~ (fst i <= skip_occupied cursor occ < snd i).
Proof.
  induction occ as [|[s e] r IH]; intros cursor Hord Hsep i Hi; [destruct Hi|].
  pose proof (separated_after (s, e) r Hord Hsep) as Hafter. cbn [snd] in Hafter.
  destruct Hord as [Hlow Hord]. destruct Hsep as [_ Hsep]. cbn [fst] in Hlow.
  cbn [skip_occupied].
  destruct Hi as [<-|Hi]; [|apply IH; assumption].
  cbn [fst snd].
  destruct ((s <=? cursor) && (cursor <? e)) eqn:C.
  - pose proof (skip_occupied_ge e r). lia.
  - apply andb_false_iff in C.
    destruct (Z_lt_le_dec cursor s) as [Hlt|Hge].
    + rewrite skip_occupied_before; [lia|].
      eapply Forall_impl; [|exact Hlow]. cbn. intros; lia.
    + destruct C as [C|C]; [apply Z.leb_gt in C; lia|].
      apply Z.ltb_ge in C. pose proof (skip_occupied_ge cursor r). lia.
Qed.

(** X5: after the loop that moves the cursor past the interval that
    contains it, run on a merged set, the cursor has not moved back and is
    not inside any occupied interval. *)
Theorem cursor_free_after_skip (cursor : datetime) (occupied : list interval) :
  cursor <= skip_occupied cursor (_merge occupied)
  /\ ~ busy occupied (skip_occupied cursor (_merge occupied)).
Proof.
  destruct (merge_canonical occupied) as (Hbusy & Hord & Hsep).
  split; [apply skip_occupied_ge|].
  intros Hb. apply Hbusy in Hb. destruct Hb as (i & Hi & Hx).
  exact (skip_occupied_free (_merge occupied) cursor Hord Hsep i Hi Hx).
Qed.

(** ** The formatted times and the keys of the final sort *)

(** The hours of a day and the minutes of an hour. *)
Lemma in_range_list (n : nat) (x : Z) :
  0 <= x < Z.of_nat n -> In x (map Z.of_nat (seq 0 n)).
Proof.
  intros H. apply in_map_iff. exists (Z.to_nat x).
  split; [lia|]. apply in_seq. lia.
Qed.

Definition result_datetime_eqb (r : result Z) (t : Z) : bool :=
  match r with
  | Ok k => k =? t
  | Raise _ => false
  end.

Lemma fmt_round_trip_all :
  forallb (fun h =>
    forallb (fun m =>
      result_datetime_eqb (strptime_IMp (_fmt (mk_datetime 0 h m 0 0)))
                          (mk_datetime STRPTIME_DAY h m 0 0))
      (map Z.of_nat (seq 0 60)))
    (map Z.of_nat (seq 0 24)) = true.
Proof. vm_compute. reflexivity. Qed.

Lemma strptime_of_fmt (t : datetime) :
  strptime_IMp (_fmt t) = Ok (time_of_day t).
Proof.
  pose proof (dt_hour_range t) as Hh. pose proof (dt_minute_range t) as Hm.
  assert (Hfmt : _fmt t = _fmt (mk_datetime 0 (dt_hour t) (dt_minute t) 0 0))
    by (unfold _fmt; rewrite hour_mk, minute_mk by lia; reflexivity).
  rewrite Hfmt.
  pose proof fmt_round_trip_all as Hall.
  rewrite forallb_forall in Hall.
  specialize (Hall (dt_hour t) (in_range_list 24 _ Hh)).
  rewrite forallb_forall in Hall.
  specialize (Hall (dt_minute t) (in_range_list 60 _ Hm)).
  unfold result_datetime_eqb in Hall. unfold time_of_day.
  destruct (strptime_IMp (_fmt (mk_datetime 0 (dt_hour t) (dt_minute t) 0 0)))
    as [k|]; [|discriminate].
  apply Z.eqb_eq in Hall. congruence.
Qed.

(** X7: the formatted start time reads back, with the format of the final
    sort, as the time of day of the timestamp: [strptime] never fails on
    what [_fmt] writes, and the date is what is lost. *)
Theorem fmt_strptime_round_trip (t : datetime) :
  strptime_IMp (_fmt t) = Ok (time_of_day t).
Proof. apply strptime_of_fmt. Qed.

Lemma sort_keys_total placed :
  sort_keys placed = Ok (map (fun p => (time_of_day (pl_start p), p)) placed).
Proof.
  induction placed as [|p r IH]; cbn [sort_keys map]; [reflexivity|].
  rewrite strptime_of_fmt. cbn [bind]. rewrite IH. reflexivity.
Qed.

Section SortPermutation.
Context {A : Type} (key : A -> Z).

Lemma insert_by_permutation x l : Permutation (x :: l) (insert_by key x l).
Proof.
  induction l as [|y r IH]; cbn [insert_by]; [reflexivity|].
  destruct (key x <=? key y); [reflexivity|].
  rewrite perm_swap. constructor. exact IH.
Qed.

Lemma sorted_by_permutation l : Permutation l (sorted_by key l).
Proof.
  induction l as [|x r IH]; cbn [sorted_by]; [constructor|].
  rewrite <- insert_by_permutation. constructor. exact IH.
Qed.
End SortPermutation.

Lemma ordered_by_map {A B : Type} (f : A -> B) (key : B -> Z) l :
  ordered_by (fun a => key (f a)) l -> ordered_by key (map f l).
Proof.
  induction l as [|x r IH]; cbn [map ordered_by]; [auto|].
  intros [Hx Hr]. split; [|auto].
  apply Forall_map. exact Hx.
Qed.

Lemma ordered_by_ext {A : Type} (key key' : A -> Z) l :
  Forall (fun a => key a = key' a) l -> ordered_by key l -> ordered_by key' l.
Proof.
  induction l as [|x r IH]; cbn [ordered_by]; [auto|].
  intros Hext [Hx Hr]. inversion Hext as [|y l Hy Hl]; subst.
  split; [|auto].
  rewrite Forall_forall in *. intros z Hz.
  rewrite <- Hy, <- (Hl z Hz). auto.
Qed.

Lemma chronological_spec (placed : list placement) :
  exists out,
    chronological placed = Ok out
    /\ Permutation placed out
    /\ ordered_by (fun p => time_of_day (pl_start p)) out.
Proof.
  unfold chronological. rewrite sort_keys_total. cbn [bind].
  set (ks := map (fun p => (time_of_day (pl_start p), p)) placed).
  exists (map snd (sorted_by fst ks)).
  split; [reflexivity|]. split.
  - assert (Hks : map snd ks = placed)
      by (unfold ks; rewrite map_map; cbn; apply map_id).
    rewrite <- Hks at 1.
    apply Permutation_map. apply sorted_by_permutation.
  - apply ordered_by_map.
    apply (ordered_by_ext fst); [|apply sorted_by_ordered].
    apply Forall_forall. intros [k p] Hin.
    apply (proj1 (sorted_by_in fst (k, p) ks)) in Hin.
    unfold ks in Hin. apply in_map_iff in Hin.
    destruct Hin as (q & [= <- <-] & _). reflexivity.
Qed.

(** X8: the final sort never fails; it returns the entries it was given,
    each exactly once, in ascending order of the time of day of their
    start. *)
Theorem chronological_sorts_by_time_of_day (placed : list placement) :
  exists out,
    chronological placed = Ok out
    /\ Permutation placed out
    /\ ordered_by (fun p => time_of_day (pl_start p)) out.
Proof. apply chronological_spec. Qed.

(** X9: a call raises only while it resolves the window or the
    deadlines: once the end of the window and the split of the tasks are
    there, the call returns a list. *)
Theorem schedule_returns_once_inputs_resolve (w : world) (parsed_tasks : list task)
  (p : profile) (schedule_type : string) (day_end : datetime)
  (deadline_tasks : list (datetime * task)) (normal_tasks : list task) :
  window_end (clock w) (_round_up_to_grid (clock w)) p schedule_type = Ok (Some day_end) ->
  split_tasks (clock w) day_end (reordered w parsed_tasks)
  = Ok (deadline_tasks, normal_tasks) ->
  exists out, snd (schedule_tasks w parsed_tasks p schedule_type) = Ok out.
Proof.
  intros Hw Hs. unfold schedule_tasks, schedule_placements.
  destruct parsed_tasks as [|t0 r0]; [exists []; reflexivity|].
  rewrite Hw, Hs. cbn [bind].
  destruct (chronological_spec
              (place_all (_round_up_to_grid (clock w)) day_end deadline_tasks normal_tasks))
    as (out & -> & _).
  exists (map render out). reflexivity.
Qed.

Lemma schedule_returns_once_inputs_resolve_witness :
  exists out,
    snd (schedule_tasks (world_at 7 50)
           [deadline_task "standup" 30 "10:00"; plain_task "email" 60]
           no_profile "personal") = Ok out.
Proof.
  apply (schedule_returns_once_inputs_resolve (world_at 7 50)
           [deadline_task "standup" 30 "10:00"; plain_task "email" 60]
           no_profile "personal" (mk_datetime 100 14 0 0 0)
           [(mk_datetime 100 10 0 0 0, deadline_task "standup" 30 "10:00")]
           [plain_task "email" 60]).
  - vm_compute. reflexivity.
  - vm_compute. reflexivity.
Defined.

(** ** Times read from [HH:MM] text *)

Lemma first_success_some {A B : Type} (f : A -> option B) l y :
  first_success f l = Some y -> exists x, In x l /\ f x = Some y.
Proof.
  induction l as [|x r IH]; cbn [first_success]; [discriminate|].
  destruct (f x) as [y'|] eqn:Hx.
  - intros [= <-]. exists x. cbn. auto.
  - intros H. destruct (IH H) as (x' & Hin & Hf). exists x'. cbn. auto.
Qed.

Lemma digit_value_range c : is_digit c = true -> 0 <= digit_value c <= 9.
Proof.
  unfold is_digit, digit_value. intros H.
  apply andb_true_iff in H. destruct H as [H1 H2].
  apply Z.leb_le in H1, H2. lia.
Qed.

Lemma in_singleton_fst {A B : Type} (x v : A) (r r' : B) :
  In (x, r) [(v, r')] -> x = v.
Proof. intros [H|[]]. congruence. Qed.

Lemma directive_H_range s h r : In (h, r) (directive_H s) -> 0 <= h <= 23.
Proof.
  unfold directive_H. destruct s as [|a s']; [intros []|].
  intros Hin. apply in_app_iff in Hin. destruct Hin as [Hin|Hin].
  - destruct s' as [|b s'']; [destruct Hin|].
    apply in_app_iff in Hin. destruct Hin as [Hin|Hin].
    + destruct (Ascii.eqb a "2" && is_digit b && (digit_value b <=? 3)) eqn:C;
        [|destruct Hin].
      apply in_singleton_fst in Hin. subst.
      apply andb_true_iff in C. destruct C as [C C3].
      apply andb_true_iff in C. destruct C as [_ Cb].
      apply Z.leb_le in C3. pose proof (digit_value_range b Cb). lia.
    + destruct (is_digit a && (digit_value a <=? 1) && is_digit b) eqn:C;
        [|destruct Hin].
      apply in_singleton_fst in Hin. subst.
      apply andb_true_iff in C. destruct C as [C Cb].
      apply andb_true_iff in C. destruct C as [Ca C1].
      apply Z.leb_le in C1.
      pose proof (digit_value_range a Ca). pose proof (digit_value_range b Cb). lia.
  - destruct (is_digit a) eqn:Ca; [|destruct Hin].
    apply in_singleton_fst in Hin. subst.
    pose proof (digit_value_range a Ca). lia.
Qed.

Lemma directive_M_range s m r : In (m, r) (directive_M s) -> 0 <= m <= 59.
Proof.
  unfold directive_M. destruct s as [|a s']; [intros []|].
  intros Hin. apply in_app_iff in Hin. destruct Hin as [Hin|Hin].
  - destruct s' as [|b s'']; [destruct Hin|].
    destruct (is_digit a && (digit_value a <=? 5) && is_digit b) eqn:C;
      [|destruct Hin].
    apply in_singleton_fst in Hin. subst.
    apply andb_true_iff in C. destruct C as [C Cb].
    apply andb_true_iff in C. destruct C as [Ca C5].
    apply Z.leb_le in C5.
    pose proof (digit_value_range a Ca). pose proof (digit_value_range b Cb). lia.
  - destruct (is_digit a) eqn:Ca; [|destruct Hin].
    apply in_singleton_fst in Hin. subst.
    pose proof (digit_value_range a Ca). lia.
Qed.

Lemma strptime_HM_range s h m :
  strptime_HM s = Ok (h, m) -> 0 <= h <= 23 /\ 0 <= m <= 59.
Proof.
  unfold strptime_HM.
  match goal with |- context [first_success ?f (directive_H s)] =>
    destruct (first_success f (directive_H s)) as [[[h' m'] rest]|] eqn:Hf
  end; [|discriminate].
  destruct rest; [|discriminate]. intros [= <- <-].
  apply first_success_some in Hf. destruct Hf as ([h0 r0] & Hh & Hf).
  destruct (eat_char ":" r0) as [r1|]; [|discriminate].
  apply first_success_some in Hf. destruct Hf as ([m0 r2] & Hm & [= <- <- _]).
  split; [eapply directive_H_range | eapply directive_M_range]; eassumption.
Qed.

Lemma time_to_dt_form base v t :
  _time_to_dt base v = Ok t ->
  exists h m, 0 <= h <= 23 /\ 0 <= m <= 59 /\ t = mk_datetime (dt_date base) h m 0 0.
Proof.
  unfold _time_to_dt. destruct v as [| | |s|]; try discriminate.
  destruct (strptime_HM s) as [[h m]|] eqn:Hs; cbn [bind]; [|discriminate].
  intros [= <-]. destruct (strptime_HM_range _ _ _ Hs).
  exists h, m. auto.
Qed.

Lemma strptime_HM_error s e : strptime_HM s = Raise e -> e = ValueError.
Proof.
  unfold strptime_HM.
  match goal with |- context [first_success ?f (directive_H s)] =>
    destruct (first_success f (directive_H s)) as [[[h m] rest]|]
  end; [destruct rest|]; congruence.
Qed.

(** X10: a time that [_time_to_dt] reads from text lies on the base day,
    at a whole minute with hour at most 23 and minute at most 59; when the
    conversion fails, a value that is not a string raises [TypeError] and a
    string raises [ValueError]. *)
Theorem time_to_dt_same_day (base_day : datetime) (hhmm : pyval) :
  match _time_to_dt base_day hhmm with
  | Ok t =>
      (exists s, hhmm = PStr s)
      /\ dt_date t = dt_date base_day
      /\ 0 <= dt_hour t <= 23 /\ 0 <= dt_minute t <= 59
      /\ dt_second t = 0 /\ dt_microsecond t = 0
  | Raise e =>
      match hhmm with
      | PStr _ => e = ValueError
      | _ => e = TypeError
      end
  end.
Proof.
  destruct (_time_to_dt base_day hhmm) as [t|e] eqn:H.
  - destruct (time_to_dt_form _ _ _ H) as (h & m & Hh & Hm & ->).
    rewrite date_mk, hour_mk, minute_mk, second_mk, microsecond_mk by lia.
    repeat split; try lia.
    unfold _time_to_dt in H. destruct hhmm as [| | |s|]; try discriminate.
    exists s. reflexivity.
  - unfold _time_to_dt in H. destruct hhmm as [| | |s|]; try congruence.
    destruct (strptime_HM s) as [[h m]|e'] eqn:Hs; cbn [bind] in H; [discriminate|].
    injection H as <-. eapply strptime_HM_error. exact Hs.
Qed.

(** ** Schedules that end by midnight are chronological *)

Lemma ordered_by_shift {A : Type} (key key' : A -> Z) (c : Z) l :
  Forall (fun a => key' a = key a + c) l -> ordered_by key l -> ordered_by key' l.
Proof.
  induction l as [|x r IH]; cbn [ordered_by]; [auto|].
  intros Hext [Hx Hr]. inversion Hext as [|y l Hy Hl]; subst.
  split; [|auto].
  rewrite Forall_forall in *. intros z Hz.
  rewrite Hy, (Hl z Hz). specialize (Hx z Hz). lia.
Qed.

Lemma start_on_first_day start_from t :
  on_grid t -> start_from <= t ->
  t < mk_datetime (dt_date start_from + 1) 0 0 0 0 ->
  t = time_of_day t + dt_date start_from * US_PER_DAY.
Proof.
  intros (Eu & Es & _) Hge Hlt.
  assert (Hday : 0 < US_PER_DAY) by dt_arith.
  assert (Hd : dt_date t = dt_date start_from).
  { unfold dt_date.
    pose proof (Z.div_le_mono start_from t US_PER_DAY Hday Hge).
    assert (t / US_PER_DAY < start_from / US_PER_DAY + 1).
    { apply Z.div_lt_upper_bound; [exact Hday|].
      unfold dt_date in Hlt. dt_arith. }
    lia. }
  rewrite (dt_decompose t) at 1. rewrite Es, Eu, Hd.
  unfold time_of_day, STRPTIME_DAY. dt_arith.
Qed.

Lemma round_up_lower t : mk_datetime (dt_date t) 0 0 0 0 <= _round_up_to_grid t.
Proof.
  pose proof (dt_hour_range t). pose proof (dt_minute_range t).
  rewrite round_up_spec.
  assert (0 <= grid_up (dt_minute t)).
  { unfold grid_up.
    destruct (dt_minute t <=? 0); [lia|]. destruct (dt_minute t <=? 15); [lia|].
    destruct (dt_minute t <=? 30); [lia|]. destruct (dt_minute t <=? 45); lia. }
  dt_arith.
Qed.

Lemma same_day_ordered w parsed_tasks p schedule_type events placed day_end :
  schedule_placements w parsed_tasks p schedule_type = (events, Ok placed) ->
  window_end (clock w) (_round_up_to_grid (clock w)) p schedule_type = Ok (Some day_end) ->
  day_end <= mk_datetime (dt_date (_round_up_to_grid (clock w)) + 1) 0 0 0 0 ->
  ordered_by pl_start placed.
Proof.
  intros Hrun Hw Hmid.
  destruct (schedule_placements_stages _ _ _ _ _ _ Hrun)
    as [->|(de & dts & nts & _ & _ & Hc)]; [exact I|].
  destruct (chronological_spec
              (place_all (_round_up_to_grid (clock w)) de dts nts))
    as (out & Hout & _ & Hord).
  rewrite Hc in Hout. injection Hout as <-.
  apply (ordered_by_shift (fun pl => time_of_day (pl_start pl)) pl_start
           (dt_date (_round_up_to_grid (clock w)) * US_PER_DAY)); [|exact Hord].
  apply Forall_forall. intros pl Hin.
  destruct (placement_bounds _ _ _ _ _ _ _ Hrun Hin)
    as (de' & Hw' & Hs & Hlt & He & Hg).
  rewrite Hw in Hw'. injection Hw' as <-.
  apply start_on_first_day; [exact Hg|exact Hs|lia].
Qed.

(** X11: when the window ends no later than the midnight that follows
    the quantized current time, the returned list is ascending by the actual
    start timestamps. *)
Theorem schedule_ending_by_midnight_is_chronological (w : world)
  (parsed_tasks : list task) (p : profile) (schedule_type : string)
  (events : list event) (placed : list placement) (day_end : datetime) :
  schedule_placements w parsed_tasks p schedule_type = (events, Ok placed) ->
  window_end (clock w) (_round_up_to_grid (clock w)) p schedule_type = Ok (Some day_end) ->
  day_end <= mk_datetime (dt_date (_round_up_to_grid (clock w)) + 1) 0 0 0 0 ->
  ordered_by pl_start placed.
Proof. apply same_day_ordered. Qed.

Lemma schedule_ending_by_midnight_is_chronological_witness :
  ordered_by pl_start
    [mkPlacement (plain_task "email" 60) None
       (mk_datetime 100 8 0 0 0) (mk_datetime 100 9 0 0 0);
     mkPlacement (deadline_task "standup" 30 "10:00")
       (Some (mk_datetime 100 10 0 0 0))
       (mk_datetime 100 9 30 0 0) (mk_datetime 100 10 0 0 0)].
Proof.
  apply (schedule_ending_by_midnight_is_chronological (world_at 7 50)
           [deadline_task "standup" 30 "10:00"; plain_task "email" 60]
           no_profile "personal" [ReadClock; CallReorder] _
           (mk_datetime 100 14 0 0 0)).
  - vm_compute. reflexivity.
  - vm_compute. reflexivity.
  - vm_compute. discriminate.
Defined.

(** X12: for the work-related category the returned list is always
    ascending by the actual start timestamps: the window ends at a time of
    the current day. *)
Theorem work_schedule_is_chronological (w : world) (parsed_tasks : list task)
  (p : profile) (events : list event) (placed : list placement) :
  schedule_placements w parsed_tasks p "work-related" = (events, Ok placed) ->
  ordered_by pl_start placed.
Proof.
  intros Hrun.
  destruct (schedule_placements_stages _ _ _ _ _ _ Hrun)
    as [->|(de & dts & nts & Hw & _ & _)]; [exact I|].
  apply (same_day_ordered _ _ _ _ _ _ de Hrun Hw).
  unfold window_end in Hw. cbn [String.eqb Ascii.eqb Bool.eqb] in Hw.
  destruct (profile_work_end p) as [v|]; cbn [bind] in Hw; [|discriminate].
  destruct (_time_to_dt (clock w) v) as [t|] eqn:Ht; cbn [bind] in Hw; [|discriminate].
  destruct (t <=? _round_up_to_grid (clock w)); [discriminate|].
  injection Hw as <-.
  destruct (time_to_dt_form _ _ _ Ht) as (h & m & Hh & Hm & ->).
  pose proof (round_up_lower (clock w)) as Hlow.
  assert (Hd : dt_date (clock w) <= dt_date (_round_up_to_grid (clock w))).
  { rewrite <- (date_mk (dt_date (clock w)) 0 0 0 0) at 1 by lia.
    unfold dt_date at 1 3. apply Z.div_le_mono; [dt_arith|exact Hlow]. }
  dt_arith.
Qed.

Lemma work_schedule_is_chronological_witness :
  ordered_by pl_start
    [mkPlacement (plain_task "email" 60) None
       (mk_datetime 100 8 0 0 0) (mk_datetime 100 9 0 0 0);
     mkPlacement (deadline_task "standup" 30 "10:00")
       (Some (mk_datetime 100 10 0 0 0))
       (mk_datetime 100 9 30 0 0) (mk_datetime 100 10 0 0 0)].
Proof.
  apply (work_schedule_is_chronological (world_at 7 50)
           [deadline_task "standup" 30 "10:00"; plain_task "email" 60]
           no_profile [ReadClock; CallReorder]).
  vm_compute. reflexivity.
Defined.

(** ** Which tasks are placed *)

Lemma split_tasks_partition now day_end tasks deadline_tasks normal_tasks :
  split_tasks now day_end tasks = Ok (deadline_tasks, normal_tasks) ->
  exists skipped,
    Permutation (map snd deadline_tasks ++ normal_tasks ++ skipped) tasks
    /\ Forall (fun t => task_desc t = "") skipped
    /\ Forall (fun t => task_desc t <> "") (map snd deadline_tasks ++ normal_tasks).
Proof.
  revert deadline_tasks normal_tasks.
  induction tasks as [|t r IH]; intros dts nts; cbn [split_tasks].
  - intros [= <- <-]. exists []. cbn. repeat split; constructor.
  - destruct (String.eqb (task_desc t) "") eqn:E.
    + intros H. destruct (IH _ _ H) as (sk & Hp & Hs & Hn).
      exists (t :: sk). split; [|split; [|exact Hn]].
      * rewrite app_assoc. rewrite <- Permutation_middle.
        constructor. rewrite <- app_assoc. exact Hp.
      * constructor; [|exact Hs]. apply String.eqb_eq. exact E.
    + apply String.eqb_neq in E.
      destruct (task_deadline_dt now (task_desc t) t) as [dl|]; cbn [bind]; [|discriminate].
      destruct (split_tasks now day_end r) as [[dts' nts']|]; cbn [bind]; [|discriminate].
      destruct (IH dts' nts' eq_refl) as (sk & Hp & Hs & Hn).
      destruct dl as [d|]; intros [= <- <-]; exists sk.
      * cbn [map snd app]. repeat split; auto.
      * split; [|split; [exact Hs|]].
        -- cbn [app]. rewrite <- Permutation_middle. constructor. exact Hp.
        -- apply Forall_app in Hn. destruct Hn as [H1 H2].
           apply Forall_app. split; [exact H1|]. constructor; assumption.
Qed.

Lemma place_deadline_tasks_tasks start_from deadline_tasks occupied placed :
  exists dropped,
    Permutation
      (map pl_task (snd (place_deadline_tasks start_from deadline_tasks occupied placed))
       ++ dropped)
      (map pl_task placed ++ map snd deadline_tasks).
Proof.
  revert occupied placed.
  induction deadline_tasks as [|[dl t] r IH]; intros occ placed;
    cbn [place_deadline_tasks].
  - exists []. reflexivity.
  - destruct (_find_backward_slot dl (_duration_minutes t) (_merge occ) start_from)
      as [[s e]|].
    + destruct (IH (_add_with_break occ s e) (placed ++ [mkPlacement t (Some dl) s e]))
        as (dropped & Hp).
      exists dropped. rewrite Hp. rewrite map_app. cbn [map pl_task snd].
      rewrite <- app_assoc. reflexivity.
    + destruct (IH occ placed) as (dropped & Hp).
      exists (t :: dropped). cbn [map snd].
      rewrite <- !Permutation_middle. constructor. exact Hp.
Qed.

Lemma place_deadline_tasks_deadlines start_from deadline_tasks occupied placed :
  Forall (fun pl => pl_deadline pl <> None) placed ->
  Forall (fun pl => pl_deadline pl <> None)
    (snd (place_deadline_tasks start_from deadline_tasks occupied placed)).
Proof.
  revert occupied placed.
  induction deadline_tasks as [|[dl t] r IH]; intros occ placed Hp;
    cbn [place_deadline_tasks]; [exact Hp|].
  destruct (_find_backward_slot dl (_duration_minutes t) (_merge occ) start_from)
    as [[s e]|]; [|auto].
  apply IH. apply Forall_app. split; [exact Hp|].
  constructor; [cbn; discriminate|constructor].
Qed.

Lemma place_normal_tasks_prefix start_from day_end normal_tasks cursor occupied placed :
  exists k forward,
    place_normal_tasks start_from day_end normal_tasks cursor occupied placed
    = placed ++ forward
    /\ map pl_task forward = firstn k normal_tasks
    /\ Forall (fun pl => pl_deadline pl = None) forward.
Proof.
  revert cursor occupied placed.
  induction normal_tasks as [|t r IH]; intros cursor occ placed;
    cbn [place_normal_tasks].
  - exists 0%nat, []. rewrite app_nil_r. repeat split; constructor.
  - destruct (_find_forward_slot cursor (_duration_minutes t) occ start_from day_end)
      as [[s e]|].
    + destruct (e + td_minutes FORCED_BREAK_MIN >=? day_end).
      * exists 1%nat, [mkPlacement t None s e]. cbn. repeat split; constructor; auto.
      * destruct (IH (e + td_minutes FORCED_BREAK_MIN)
                    (_merge (_add_with_break occ s e))
                    (placed ++ [mkPlacement t None s e]))
          as (k & fw & Heq & Hmap & Hnone).
        exists (S k), (mkPlacement t None s e :: fw).
        rewrite Heq, <- app_assoc. cbn [app map firstn pl_task].
        rewrite Hmap. repeat split; auto.
    + exists 0%nat, []. rewrite app_nil_r. repeat split; constructor.
Qed.

(** X13: the tasks without deadline are placed in list order and without
    gaps: what the two phases place is the list of the entries with a
    deadline followed by entries for a prefix of the tasks without deadline,
    so a task that does not fit keeps every later one out. *)
Theorem forward_phase_places_a_prefix (start_from day_end : datetime)
  (deadline_tasks : list (datetime * task)) (normal_tasks : list task) :
  exists k backward forward,
    place_all start_from day_end deadline_tasks normal_tasks = backward ++ forward
    /\ Forall (fun pl => pl_deadline pl <> None) backward
    /\ Forall (fun pl => pl_deadline pl = None) forward
    /\ map pl_task forward = firstn k normal_tasks.
Proof.
  unfold place_all.
  pose proof (place_deadline_tasks_deadlines start_from (sorted_by fst deadline_tasks)
                [] [] (Forall_nil _)) as Hb.
  destruct (place_deadline_tasks start_from (sorted_by fst deadline_tasks) [] [])
    as [occ placed]. cbn [snd] in Hb.
  destruct (place_normal_tasks_prefix start_from day_end normal_tasks
              (skip_occupied start_from (_merge occ)) (_merge occ) placed)
    as (k & fw & Heq & Hmap & Hnone).
  exists k, placed, fw. auto.
Qed.

Lemma place_all_tasks start_from day_end deadline_tasks normal_tasks :
  exists left_out,
    Permutation
      (map pl_task (place_all start_from day_end deadline_tasks normal_tasks) ++ left_out)
      (map snd deadline_tasks ++ normal_tasks).
Proof.
  unfold place_all.
  destruct (place_deadline_tasks_tasks start_from (sorted_by fst deadline_tasks) [] [])
    as (dropped & Hb).
  destruct (place_deadline_tasks start_from (sorted_by fst deadline_tasks) [] [])
    as [occ placed]. cbn [snd map app] in Hb.
  destruct (place_normal_tasks_prefix start_from day_end normal_tasks
              (skip_occupied start_from (_merge occ)) (_merge occ) placed)
    as (k & fw & -> & Hmap & _).
  exists (dropped ++ skipn k normal_tasks).
  rewrite map_app, Hmap.
  rewrite <- (Permutation_map snd (sorted_by_permutation fst deadline_tasks)) in Hb.
  transitivity ((map pl_task placed ++ dropped)
                ++ (firstn k normal_tasks ++ skipn k normal_tasks)).
  - rewrite <- !app_assoc. apply Permutation_app_head.
    rewrite !app_assoc. apply Permutation_app_tail.
    apply Permutation_app_comm.
  - rewrite firstn_skipn. apply Permutation_app_tail. exact Hb.
Qed.

(** X14: every task is placed at most once and no task is invented: the
    tasks of the entries of a produced schedule, together with the tasks that
    were left out, are exactly the tasks the reorder step handed over; and
    every placed task has a description that is not blank. *)
Theorem placed_tasks_are_tasks_of_the_list (w : world) (parsed_tasks : list task)
  (p : profile) (schedule_type : string) (events : list event)
  (placed : list placement) :
  schedule_placements w parsed_tasks p schedule_type = (events, Ok placed) ->
  (exists left_out,
      Permutation (map pl_task placed ++ left_out) (reordered w parsed_tasks))
  /\ Forall (fun pl => task_desc (pl_task pl) <> "") placed.
Proof.
  intros Hrun.
  destruct (schedule_placements_stages _ _ _ _ _ _ Hrun)
    as [->|(de & dts & nts & _ & Hs & Hc)].
  - split; [|constructor]. exists (reordered w parsed_tasks). reflexivity.
  - destruct (split_tasks_partition _ _ _ _ _ Hs) as (sk & Hp & _ & Hn).
    destruct (place_all_tasks (_round_up_to_grid (clock w)) de dts nts) as (lo & Hl).
    destruct (chronological_spec (place_all (_round_up_to_grid (clock w)) de dts nts))
      as (out & Hout & Hperm & _).
    rewrite Hc in Hout. injection Hout as <-.
    split.
    + exists (lo ++ sk).
      rewrite <- Hp, app_assoc, (app_assoc (map snd dts)).
      apply Permutation_app_tail.
      rewrite <- Hl. apply Permutation_app_tail.
      apply Permutation_map. symmetry. exact Hperm.
    + apply Forall_forall. intros pl Hin.
      assert (Hin' : In (pl_task pl) (map snd dts ++ nts)).
      { apply (Permutation_in _ Hl). apply in_app_iff. left.
        apply in_map. apply (Permutation_in _ (Permutation_sym Hperm)). exact Hin. }
      rewrite Forall_forall in Hn. apply Hn. exact Hin'.
Qed.

Lemma placed_tasks_are_tasks_of_the_list_witness :
  (exists left_out,
      Permutation
        (map pl_task
           [mkPlacement (plain_task "email" 60) None
              (mk_datetime 100 8 0 0 0) (mk_datetime 100 9 0 0 0);
            mkPlacement (deadline_task "standup" 30 "10:00")
              (Some (mk_datetime 100 10 0 0 0))
              (mk_datetime 100 9 30 0 0) (mk_datetime 100 10 0 0 0)] ++ left_out)
        (reordered (world_at 7 50)
           [deadline_task "standup" 30 "10:00"; plain_task "email" 60]))
  /\ Forall (fun pl => task_desc (pl_task pl) <> "")
       [mkPlacement (plain_task "email" 60) None
          (mk_datetime 100 8 0 0 0) (mk_datetime 100 9 0 0 0);
        mkPlacement (deadline_task "standup" 30 "10:00")
          (Some (mk_datetime 100 10 0 0 0))
          (mk_datetime 100 9 30 0 0) (mk_datetime 100 10 0 0 0)].
Proof.
  apply (placed_tasks_are_tasks_of_the_list (world_at 7 50)
           [deadline_task "standup" 30 "10:00"; plain_task "email" 60]
           no_profile "personal" [ReadClock; CallReorder]).
  vm_compute. reflexivity.
Defined.

(** ** Stripped text *)

Lemma rstrip_keeps_head c r :
  is_space c = false -> rstrip (String c r) = String c (rstrip r).
Proof.
  intros Hc. cbn [rstrip]. destruct (rstrip r); [rewrite Hc|]; reflexivity.
Qed.

Lemma rstrip_idempotent s : rstrip (rstrip s) = rstrip s.
Proof.
  induction s as [|c r IH]; [reflexivity|].
  cbn [rstrip]. destruct (rstrip r) as [|c' r'] eqn:Hr.
  - destruct (is_space c) eqn:Hc; [reflexivity|].
    cbn [rstrip]. rewrite Hc. reflexivity.
  - cbn [rstrip] in *. rewrite IH. reflexivity.
Qed.

Lemma lstrip_head s :
  lstrip s = EmptyString \/ exists c r, lstrip s = String c r /\ is_space c = false.
Proof.
  induction s as [|c r IH]; [left; reflexivity|].
  cbn [lstrip]. destruct (is_space c) eqn:Hc; [exact IH|].
  right. exists c, r. auto.
Qed.

Lemma strip_idempotent s : strip (strip s) = strip s.
Proof.
  unfold strip.
  destruct (lstrip_head s) as [->|(c & r & -> & Hc)]; [reflexivity|].
  rewrite rstrip_keeps_head by exact Hc.
  cbn [lstrip]. rewrite Hc.
  rewrite <- (rstrip_keeps_head c r Hc). apply rstrip_idempotent.
Qed.

Lemma strip_rstrip s : rstrip (strip s) = strip s.
Proof. unfold strip. apply rstrip_idempotent. Qed.

(** ** Validated tasks *)

Lemma validated_level_in field : In (validated_level field) ["low"; "medium"; "high"].
Proof.
  unfold validated_level.
  set (v := lower (py_str (get_default field (PStr "medium")))).
  destruct (String.eqb v "low") eqn:E1;
    [apply String.eqb_eq in E1; rewrite E1; cbn; auto|].
  destruct (String.eqb v "medium") eqn:E2;
    [apply String.eqb_eq in E2; rewrite E2; cbn; auto|].
  destruct (String.eqb v "high") eqn:E3;
    [apply String.eqb_eq in E3; rewrite E3; cbn; auto|].
  cbn. auto.
Qed.

Lemma validate_item_clean item t :
  validate_item item = Ok (Some t) -> clean_task t /\ task_deadline t = None.
Proof.
  unfold validate_item. destruct item as [it|]; [|discriminate].
  set (desc := strip (py_str (get_default (task_description it) (PStr "")))).
  destruct (String.eqb desc "") eqn:E; [discriminate|].
  apply String.eqb_neq in E.
  destruct (py_int (get_default (task_duration it) (PInt 30))) as [dur|];
    cbn [bind]; [|discriminate].
  intros [= <-]. split; [|reflexivity].
  exists desc, (validated_level (task_priority it)), (validated_level (task_energy it)),
    (Z.max 5 (Z.min dur 240)).
  cbn [task_description task_priority task_energy task_duration].
  repeat split; auto using validated_level_in; try lia.
  apply strip_idempotent.
Qed.

Lemma validate_items_clean llm_tasks :
  Forall (fun t => clean_task t /\ task_deadline t = None) (validate_items llm_tasks)
  /\ (List.length (validate_items llm_tasks) <= List.length llm_tasks)%nat.
Proof.
  induction llm_tasks as [|item r [IH1 IH2]]; cbn [validate_items List.length].
  - split; [constructor|lia].
  - destruct (validate_item item) as [[t|]|] eqn:Hv; cbn [List.length];
      try (split; [exact IH1|lia]).
    split; [|lia]. constructor; [|exact IH1].
    apply validate_item_clean with (item := item). exact Hv.
Qed.

(** X15: [parse_llm_output] returns either the fallback list itself (when
    the answer is empty or no item of it survives validation) or a list, no
    longer than the answer, of rebuilt tasks: each with a stripped non-blank
    description, priority and energy among low/medium/high, an integer
    duration between 5 and 240, and no deadline key. *)
Theorem parse_llm_output_validates (llm_tasks : list json_item) (fallback : list task) :
  parse_llm_output llm_tasks fallback = fallback
  \/ (Forall (fun t => clean_task t /\ task_deadline t = None)
        (parse_llm_output llm_tasks fallback)
      /\ (0 < List.length (parse_llm_output llm_tasks fallback) <= List.length llm_tasks)%nat).
Proof.
  unfold parse_llm_output.
  destruct llm_tasks as [|item r]; [left; reflexivity|].
  destruct (validate_items_clean (item :: r)) as [Hall Hlen].
  destruct (validate_items (item :: r)) as [|t out]; [left; reflexivity|].
  right. split; [exact Hall|]. cbn [List.length] in *. lia.
Qed.

Lemma parse_llm_output_cases llm_tasks fallback :
  validate_items llm_tasks = []
  \/ Forall (fun t => clean_task t /\ task_deadline t = None)
       (parse_llm_output llm_tasks fallback).
Proof.
  unfold parse_llm_output.
  destruct llm_tasks as [|item r]; [left; reflexivity|].
  destruct (validate_items_clean (item :: r)) as [Hall _].
  destruct (validate_items (item :: r)) as [|t out]; [left; reflexivity|].
  right. exact Hall.
Qed.

Lemma clean_task_scheduled t :
  clean_task t ->
  exists desc dur,
    task_description t = Some (PStr desc) /\ task_duration t = Some (PInt dur)
    /\ task_desc t = desc /\ desc <> "" /\ _duration_minutes t = dur.
Proof.
  intros (desc & pr & en & dur & Hd & _ & _ & Hdur & Hne & Hstrip & _ & _ & Hr).
  exists desc, dur. repeat split; auto.
  - unfold task_desc. rewrite Hd. cbn [get_default py_str]. exact Hstrip.
  - unfold _duration_minutes. rewrite Hdur. cbn [get_default]. lia.
Qed.

(** X16: a task that went through the reorder step keeps no deadline
    field: when the answer of the service yields at least one valid item, the
    scheduler takes every task's description and duration as validated, and
    its deadline can only come from a phrase in the description. *)
Theorem reordered_tasks_lose_deadline_field (w : world) (parsed_tasks : list task)
  (llm_tasks : list json_item) (now : datetime) (t : task) :
  reorder_reply w = Some llm_tasks ->
  validate_items llm_tasks <> [] ->
  In t (reordered w parsed_tasks) ->
  task_deadline t = None
  /\ task_desc t <> ""
  /\ task_duration t = Some (PInt (_duration_minutes t))
  /\ resolved_deadline now t = _parse_deadline_from_text (task_desc t) now.
Proof.
  intros Hr Hne Hin. unfold reordered in Hin. rewrite Hr in Hin.
  destruct (parse_llm_output_cases llm_tasks parsed_tasks) as [Hfb|Hall].
  - exfalso. apply Hne. exact Hfb.
  - rewrite Forall_forall in Hall. destruct (Hall t Hin) as [Hc Hd].
    destruct (clean_task_scheduled t Hc) as (desc & dur & _ & Hdur & Hdesc & Hnb & Hmin).
    repeat split; auto.
    + congruence.
    + rewrite Hdur, Hmin. reflexivity.
    + unfold resolved_deadline, task_deadline_dt. rewrite Hd. cbn [get get_default bind].
      destruct (_parse_deadline_from_text (task_desc t) now) as [[d|]|]; reflexivity.
Qed.

Lemma reordered_tasks_lose_deadline_field_witness :
  task_deadline
    (mkTask (Some (PStr "standup")) (Some (PStr "medium")) (Some (PStr "medium"))
            (Some (PInt 30)) None) = None
  /\ task_desc
       (mkTask (Some (PStr "standup")) (Some (PStr "medium")) (Some (PStr "medium"))
               (Some (PInt 30)) None) <> ""
  /\ task_duration
       (mkTask (Some (PStr "standup")) (Some (PStr "medium")) (Some (PStr "medium"))
               (Some (PInt 30)) None)
     = Some (PInt (_duration_minutes
                     (mkTask (Some (PStr "standup")) (Some (PStr "medium"))
                             (Some (PStr "medium")) (Some (PInt 30)) None)))
  /\ resolved_deadline (mk_datetime 100 9 0 0 0)
       (mkTask (Some (PStr "standup")) (Some (PStr "medium")) (Some (PStr "medium"))
               (Some (PInt 30)) None)
     = _parse_deadline_from_text
         (task_desc
            (mkTask (Some (PStr "standup")) (Some (PStr "medium")) (Some (PStr "medium"))
                    (Some (PInt 30)) None))
         (mk_datetime 100 9 0 0 0).
Proof.
  apply (reordered_tasks_lose_deadline_field
           (mkWorld (mk_datetime 100 9 0 0 0)
              (Some [JObject (deadline_task " standup " 30 "10:00")]))
           [deadline_task " standup " 30 "10:00"]
           [JObject (deadline_task " standup " 30 "10:00")]).
  - reflexivity.
  - vm_compute. discriminate.
  - vm_compute. left. reflexivity.
Defined.

(** ** The parser's normalization *)

(** Decides a test on text whose first characters are known, by cases on
    the tests of the single characters. *)
Ltac split_char_tests :=
  repeat (match goal with
          | |- context [if ?b then _ else _] => destruct b eqn:?
          | |- context [andb ?b _] => destruct b eqn:?
          | |- context [orb ?b _] => destruct b eqn:?
          end; cbn).

Lemma matches_hhmm_shape s :
  matches_hhmm s = true ->
  String.length s = 5%nat
  \/ exists a b c d e,
       s = String a (String b (String c (String d (String e (String "010" EmptyString))))).
Proof.
  destruct s as [|a [|b [|c [|d [|e [|f [|g r]]]]]]];
    try (intros _; left; reflexivity);
    try (unfold matches_hhmm, eat_digits, eat_char; cbn; split_char_tests; discriminate).
  unfold matches_hhmm, eat_digits, eat_char. cbn.
  destruct (Ascii.eqb f "010") eqn:Ef.
  - apply Ascii.eqb_eq in Ef. subst f.
    intros _. right. exists a, b, c, d, e. reflexivity.
  - split_char_tests; discriminate.
Qed.

Lemma stripped_hhmm_length s :
  rstrip s = s -> matches_hhmm s = true -> String.length s = 5%nat.
Proof.
  intros Hr Hm.
  destruct (matches_hhmm_shape s Hm) as [H|(a & b & c & d & e & ->)]; [exact H|].
  exfalso.
  apply (f_equal String.length) in Hr. revert Hr.
  cbn [rstrip]. change (is_space "010") with true. cbn iota.
  destruct (is_space e); [destruct (is_space d);
    [destruct (is_space c); [destruct (is_space b); [destruct (is_space a)|]|]|]|];
    cbn; discriminate.
Qed.

Lemma normalized_duration_range val : 5 <= normalized_duration val <= 240.
Proof. unfold normalized_duration. lia. Qed.

Lemma normalized_deadline_clean field dl :
  normalized_deadline field = Ok dl ->
  dl = PNone
  \/ exists s, dl = PStr s /\ String.length s = 5%nat /\ matches_hhmm s = true.
Proof.
  unfold normalized_deadline.
  destruct (get_default field PNone) as [| | |s0|]; try discriminate.
  - intros [= <-]. auto.
  - destruct (String.eqb (strip s0) ""); [intros [= <-]; auto|].
    destruct (matches_hhmm (strip s0)) eqn:Hm; intros [= <-]; [|auto].
    right. exists (strip s0). repeat split; auto.
    apply stripped_hhmm_length; [apply strip_rstrip|exact Hm].
Qed.

Lemma normalize_item_clean item t :
  normalize_item item = Ok (Some t) -> clean_task t /\ clean_deadline t.
Proof.
  unfold normalize_item. destruct item as [it|]; [|discriminate].
  set (desc := strip (py_str (get_default (task_description it) (PStr "")))).
  destruct (String.eqb desc "") eqn:E; [discriminate|].
  apply String.eqb_neq in E.
  destruct (normalized_deadline (task_deadline it)) as [dl|] eqn:Hd;
    cbn [bind]; [|discriminate].
  intros [= <-]. split.
  - exists desc, (validated_level (task_priority it)), (validated_level (task_energy it)),
      (normalized_duration (get_default (task_duration it) (PInt 30))).
    cbn [task_description task_priority task_energy task_duration].
    pose proof (normalized_duration_range (get_default (task_duration it) (PInt 30))).
    repeat split; auto using validated_level_in; try lia.
    apply strip_idempotent.
  - unfold clean_deadline. cbn [task_deadline].
    destruct (normalized_deadline_clean _ _ Hd) as [->|(s & -> & Hl & Hm)]; [auto|].
    right. exists s. auto.
Qed.

(** X17: every task that the normalizing loop of [parse_tasks] returns
    has a stripped non-blank description, priority and energy among
    low/medium/high, an integer duration between 5 and 240, and a deadline
    that is [None] or exactly five characters [dd:dd]; the scheduler then
    keeps the task (its description is not blank) and uses that duration
    unchanged.  The range of the deadline's hour and minute is not checked. *)
Theorem parse_tasks_normalizes (data : list json_item) (normalized : list task) :
  normalize_items data = Ok normalized ->
  Forall (fun t =>
            clean_task t /\ clean_deadline t
            /\ task_desc t <> ""
            /\ task_duration t = Some (PInt (_duration_minutes t)))
         normalized
  /\ (List.length normalized <= List.length data)%nat.
Proof.
  revert normalized.
  induction data as [|item r IH]; intros normalized; cbn [normalize_items].
  - intros [= <-]. split; [constructor|reflexivity].
  - destruct (normalize_item item) as [o|] eqn:Hi; cbn [bind]; [|discriminate].
    destruct (normalize_items r) as [rest|]; cbn [bind]; [|discriminate].
    destruct (IH rest eq_refl) as [Hall Hlen].
    destruct o as [t|]; intros [= <-]; cbn [List.length]; (split; [|lia]); [|exact Hall].
    constructor; [|exact Hall].
    destruct (normalize_item_clean _ _ Hi) as [Hc Hd].
    destruct (clean_task_scheduled t Hc) as (desc & dur & _ & Hdur & Hdesc & Hnb & Hmin).
    repeat split; auto; congruence.
Qed.

Lemma parse_tasks_normalizes_witness :
  Forall (fun t =>
            clean_task t /\ clean_deadline t
            /\ task_desc t <> ""
            /\ task_duration t = Some (PInt (_duration_minutes t)))
         [mkTask (Some (PStr "Dinner before 9 pm")) (Some (PStr "medium"))
                 (Some (PStr "low")) (Some (PInt 240)) (Some (PStr "21:00"))]
  /\ (List.length
        [mkTask (Some (PStr "Dinner before 9 pm")) (Some (PStr "medium"))
                (Some (PStr "low")) (Some (PInt 240)) (Some (PStr "21:00"))]
      <= List.length
           [JObject (mkTask (Some (PStr " Dinner before 9 pm ")) (Some (PStr "urgent"))
                            (Some (PStr "LOW")) (Some (PStr "900")) (Some (PStr " 21:00 ")));
            JObject (mkTask (Some (PStr "   ")) None None None None)])%nat.
Proof.
  apply (parse_tasks_normalizes
           [JObject (mkTask (Some (PStr " Dinner before 9 pm ")) (Some (PStr "urgent"))
                            (Some (PStr "LOW")) (Some (PStr "900")) (Some (PStr " 21:00 ")));
            JObject (mkTask (Some (PStr "   ")) None None None None)]).
  vm_compute. reflexivity.
Defined.

(** X18: the normalizing loop of [parse_tasks] raises in exactly two
    cases: [AttributeError] when the first offending element is not an
    object, and [TypeError] when it is an object with a non-blank description
    whose deadline is neither a string nor [None]; everything else is
    repaired with defaults. *)
Theorem parse_tasks_raises_only_on_shape (data : list json_item) :
  match normalize_items data with
  | Ok _ =>
      Forall (fun item =>
                exists it, item = JObject it
                  /\ (strip (py_str (get_default (task_description it) (PStr ""))) = ""
                      \/ match get_default (task_deadline it) PNone with
                         | PNone | PStr _ => True
                         | _ => False
                         end)) data
  | Raise e =>
      exists before item after,
        data = before ++ item :: after
        /\ (exists ok, normalize_items before = Ok ok)
        /\ match item with
           | JOther => e = AttributeError
           | JObject it =>
               e = TypeError
               /\ strip (py_str (get_default (task_description it) (PStr ""))) <> ""
               /\ match get_default (task_deadline it) PNone with
                  | PNone | PStr _ => False
                  | _ => True
                  end
           end
  end.
Proof.
  induction data as [|item r IH]; cbn [normalize_items]; [constructor|].
  destruct (normalize_item item) as [o|e] eqn:Hi; cbn [bind].
  - assert (Hitem : exists it, item = JObject it
              /\ (strip (py_str (get_default (task_description it) (PStr ""))) = ""
                  \/ match get_default (task_deadline it) PNone with
                     | PNone | PStr _ => True
                     | _ => False
                     end)).
    { unfold normalize_item in Hi. destruct item as [it|]; [|discriminate].
      exists it. split; [reflexivity|].
      destruct (String.eqb (strip (py_str (get_default (task_description it) (PStr "")))) "")
        eqn:E; [left; apply String.eqb_eq; exact E|].
      right. unfold normalized_deadline in Hi.
      destruct (get_default (task_deadline it) PNone); try exact I;
        cbn [bind] in Hi; discriminate. }
    destruct (normalize_items r) as [rest|e]; cbn [bind].
    + destruct o; constructor; assumption.
    + destruct IH as (before & bad & after & -> & (ok & Hok) & Hbad).
      exists (item :: before), bad, after. split; [reflexivity|].
      split; [|exact Hbad].
      cbn [normalize_items]. rewrite Hi, Hok. cbn [bind].
      destruct o; eauto.
  - exists [], item, r. split; [reflexivity|]. split; [exists []; reflexivity|].
    unfold normalize_item in Hi. destruct item as [it|]; [|congruence].
    destruct (String.eqb (strip (py_str (get_default (task_description it) (PStr "")))) "")
      eqn:E; [discriminate|].
    apply String.eqb_neq in E.
    unfold normalized_deadline in Hi.
    destruct (get_default (task_deadline it) PNone) as [| | |s|];
      cbn [bind] in Hi; try (split; [congruence|split; [exact E|exact I]]).
    + discriminate.
    + destruct (String.eqb (strip s) ""); cbn [bind] in Hi; [discriminate|].
      destruct (matches_hhmm (strip s)); cbn [bind] in Hi; discriminate.
Qed.

(** ** Model fallback *)

Section ChatCompleteProperties.
Context {Resp Exc : Type} (create : string -> Resp + Exc).

Lemma try_fallbacks_spec model e fallbacks :
  exists rest,
    filter (fun fb => negb (String.eqb fb model)) fallbacks
    = fst (try_fallbacks create model fallbacks e) ++ rest
    /\ match snd (try_fallbacks create model fallbacks e) with
       | inl resp =>
           exists failed m,
             fst (try_fallbacks create model fallbacks e) = failed ++ [m]
             /\ create m = inl resp /\ Forall (model_fails create) failed
       | inr e' =>
           e' = e /\ rest = []
           /\ Forall (model_fails create) (fst (try_fallbacks create model fallbacks e))
       end.
Proof.
  induction fallbacks as [|fb r IH]; cbn [try_fallbacks filter].
  - exists []. cbn. repeat split; constructor.
  - destruct (String.eqb fb model); cbn [negb]; [exact IH|].
    destruct (create fb) as [resp|e'] eqn:Hfb.
    + exists (filter (fun fb => negb (String.eqb fb model)) r). cbn [fst snd app].
      split; [reflexivity|]. exists [], fb. repeat split; auto.
    + destruct IH as (rest & Hf & Hout).
      destruct (try_fallbacks create model r e) as [asked out]. cbn [fst snd] in *.
      exists rest. split; [rewrite Hf; reflexivity|].
      destruct out as [resp|e''].
      * destruct Hout as (failed & m & -> & Hm & Hfail).
        exists (fb :: failed), m. repeat split; auto.
        constructor; [exists e'; exact Hfb|exact Hfail].
      * destruct Hout as (-> & -> & Hfail). repeat split; auto.
        constructor; [exists e'; exact Hfb|exact Hfail].
Qed.

(** X19: [_chat_complete] asks the requested model first and then the
    fallback models other than it, in order, each at most once, and stops at
    the first answer; it returns that answer, every model asked before
    having failed; when every candidate fails it has asked them all and
    raises the exception of the requested model, not that of a fallback. *)
Theorem chat_complete_falls_back_in_order (model : string) :
  NoDup (fst (_chat_complete create model))
  /\ (exists rest, candidate_models model = fst (_chat_complete create model) ++ rest)
  /\ match snd (_chat_complete create model) with
     | inl resp =>
         exists failed m,
           fst (_chat_complete create model) = failed ++ [m]
           /\ create m = inl resp /\ Forall (model_fails create) failed
     | inr e =>
         create model = inr e
         /\ fst (_chat_complete create model) = candidate_models model
         /\ Forall (model_fails create) (candidate_models model)
     end.
Proof.
  assert (Hnodup : NoDup (candidate_models model)).
  { unfold candidate_models. constructor.
    - intros Hin. apply filter_In in Hin. destruct Hin as [_ Hne].
      rewrite String.eqb_refl in Hne. discriminate.
    - apply NoDup_filter. unfold FALLBACK_MODELS.
      constructor; [intros [H|[]]; discriminate|].
      constructor; [intros []|constructor]. }
  assert (Hprefix : exists rest,
             candidate_models model = fst (_chat_complete create model) ++ rest
             /\ match snd (_chat_complete create model) with
                | inl resp =>
                    exists failed m,
                      fst (_chat_complete create model) = failed ++ [m]
                      /\ create m = inl resp /\ Forall (model_fails create) failed
                | inr e =>
                    create model = inr e /\ rest = []
                    /\ Forall (model_fails create) (fst (_chat_complete create model))
                end).
  { unfold _chat_complete, candidate_models.
    destruct (create model) as [resp|e] eqn:Hm.
    - exists (filter (fun fb => negb (String.eqb fb model)) FALLBACK_MODELS).
      cbn [fst snd app]. split; [reflexivity|].
      exists [], model. repeat split; auto.
    - destruct (try_fallbacks_spec model e FALLBACK_MODELS) as (rest & Hf & Hout).
      destruct (try_fallbacks create model FALLBACK_MODELS e) as [asked out].
      cbn [fst snd] in *. exists rest. split; [rewrite Hf; reflexivity|].
      destruct out as [resp|e'].
      + destruct Hout as (failed & m & -> & Hc & Hfail).
        exists (model :: failed), m. repeat split; auto.
        constructor; [exists e; exact Hm|exact Hfail].
      + destruct Hout as (-> & -> & Hfail). repeat split; auto.
        constructor; [exists e; exact Hm|exact Hfail]. }
  destruct Hprefix as (rest & Hc & Hout).
  split; [|split].
  - rewrite Hc in Hnodup. apply NoDup_app_remove_r in Hnodup. exact Hnodup.
  - exists rest. exact Hc.
  - destruct (snd (_chat_complete create model)) as [resp|e]; [exact Hout|].
    destruct Hout as (Hm & -> & Hfail). rewrite app_nil_r in Hc.
    rewrite Hc. auto.
Qed.
End ChatCompleteProperties.

(** ** Descriptions without digits carry no deadline *)










(** ** Deadline phrases on the 12-hour clock *)

Lemma in_range_from (a n : nat) (x : Z) :
  Z.of_nat a <= x < Z.of_nat (a + n) -> In x (map Z.of_nat (seq a n)).
Proof.
  intros H. apply in_map_iff. exists (Z.to_nat x).
  split; [lia|]. apply in_seq. lia.
Qed.

Lemma all_phrases_found :
  forallb (fun h =>
    forallb (fun pm =>
      phrase_groups_ok (before_phrase h pm) h None pm
      && forallb (fun m => phrase_groups_ok (by_phrase h m pm) h (Some m) pm)
           (map Z.of_nat (seq 0 60)))
      [true; false])
    (map Z.of_nat (seq 1 12)) = true.
Proof. vm_compute. reflexivity. Qed.

Lemma parse_of_groups text now h m pm :
  phrase_groups_ok text h m pm = true ->
  1 <= h <= 12 ->
  match m with Some mv => 0 <= mv <= 59 | None => True end ->
  _parse_deadline_from_text text now
  = Ok (Some (mk_datetime (dt_date now) (hour24 h pm)
                (match m with Some mv => mv | None => 0 end) 0 0)).
Proof.
  unfold phrase_groups_ok, _parse_deadline_from_text.
  destruct (deadline_search None text) as [g|]; [|discriminate].
  intros H Hh Hm.
  apply andb_true_iff in H. destruct H as [H Hpm].
  apply andb_true_iff in H. destruct H as [Hhour Hmin].
  apply Z.eqb_eq in Hhour. apply Bool.eqb_prop in Hpm.
  rewrite Hhour, Hpm.
  assert (Hminute : match group_minute g with
                    | Some gm => int_of_digits gm
                    | None => 0
                    end = match m with Some mv => mv | None => 0 end).
  { destruct m as [mv|], (group_minute g) as [gm|]; try discriminate; [|reflexivity].
    apply Z.eqb_eq. exact Hmin. }
  rewrite Hminute.
  assert (Hr : 0 <= hour24 h pm <= 23)
    by (unfold hour24; destruct (h =? 12) eqn:E; destruct pm;
        try (apply Z.eqb_neq in E); lia).
  assert (Hmr : 0 <= match m with Some mv => mv | None => 0 end <= 59)
    by (destruct m; lia).
  assert (Hh24 : (if pm then (if h =? 12 then 0 else h) + 12
                  else if h =? 12 then 0 else h) = hour24 h pm)
    by (unfold hour24; destruct pm; lia).
  cbv zeta. rewrite Hh24. unfold replace_time.
  replace (0 <=? hour24 h pm) with true by (symmetry; apply Z.leb_le; lia).
  replace (hour24 h pm <=? 23) with true by (symmetry; apply Z.leb_le; lia).
  replace (0 <=? match m with Some mv => mv | None => 0 end) with true
    by (symmetry; apply Z.leb_le; lia).
  replace (match m with Some mv => mv | None => 0 end <=? 59) with true
    by (symmetry; apply Z.leb_le; lia).
  reflexivity.
Qed.

(** X21: phrases of the 12-hour clock convert to the 24-hour time of the
    current day: for every hour from 1 to 12 and minute from 0 to 59, the
    texts ["call by H:MM am"], ["call by H:MM pm"], and ["Before HAM, ..."],
    ["Before HPM, ..."] give hour [H mod 12], plus 12 after noon (so
    [12 am] is 00 and [12 pm] is 12), with the stated minute or minute 0. *)
Theorem deadline_phrases_convert_to_24h (now : datetime) (h m : Z) (pm : bool) :
  1 <= h <= 12 -> 0 <= m <= 59 ->
  _parse_deadline_from_text (by_phrase h m pm) now
  = Ok (Some (mk_datetime (dt_date now) (hour24 h pm) m 0 0))
  /\ _parse_deadline_from_text (before_phrase h pm) now
     = Ok (Some (mk_datetime (dt_date now) (hour24 h pm) 0 0 0)).
Proof.
  intros Hh Hm.
  pose proof all_phrases_found as Hall.
  rewrite forallb_forall in Hall.
  specialize (Hall h (in_range_from 1 12 h ltac:(lia))).
  rewrite forallb_forall in Hall.
  assert (Hpm : In pm [true; false]) by (destruct pm; cbn; auto).
  specialize (Hall pm Hpm).
  apply andb_true_iff in Hall. destruct Hall as [Hbefore Hby].
  rewrite forallb_forall in Hby.
  specialize (Hby m (in_range_from 0 60 m ltac:(lia))).
  split.
  - apply (parse_of_groups _ now h (Some m) pm Hby Hh Hm).
  - apply (parse_of_groups _ now h None pm Hbefore Hh I).
Qed.

Lemma deadline_phrases_convert_to_24h_witness :
  _parse_deadline_from_text (by_phrase 12 30 false) (mk_datetime 100 9 0 0 0)
  = Ok (Some (mk_datetime (dt_date (mk_datetime 100 9 0 0 0)) (hour24 12 false) 30 0 0))
  /\ _parse_deadline_from_text (before_phrase 12 false) (mk_datetime 100 9 0 0 0)
     = Ok (Some (mk_datetime (dt_date (mk_datetime 100 9 0 0 0)) (hour24 12 false) 0 0 0)).
Proof.
  apply (deadline_phrases_convert_to_24h (mk_datetime 100 9 0 0 0) 12 30 false); lia.
Defined.

(** ** The shape of the formatted times *)

Lemma fmt_shape_all :
  forallb (fun h =>
    forallb (fun m =>
      String.eqb (_fmt (mk_datetime 0 h m 0 0))
        (clock_text (if h mod 12 =? 0 then 12 else h mod 12) m (12 <=? h)))
      (map Z.of_nat (seq 0 60)))
    (map Z.of_nat (seq 0 24)) = true.
Proof. vm_compute. reflexivity. Qed.

(** X22: a formatted time is the hour of the 12-hour clock, from 1 to 12
    and written without leading zero, a colon, the minute on two digits, a
    space and [AM] before noon or [PM] from noon on; midnight and noon both
    show the hour 12. *)
Theorem fmt_is_twelve_hour_clock (t : datetime) :
  _fmt t
  = clock_text (if dt_hour t mod 12 =? 0 then 12 else dt_hour t mod 12)
      (dt_minute t) (12 <=? dt_hour t)
  /\ 1 <= (if dt_hour t mod 12 =? 0 then 12 else dt_hour t mod 12) <= 12.
Proof.
  pose proof (dt_hour_range t) as Hh. pose proof (dt_minute_range t) as Hm.
  split.
  - assert (Hfmt : _fmt t = _fmt (mk_datetime 0 (dt_hour t) (dt_minute t) 0 0))
      by (unfold _fmt; rewrite hour_mk, minute_mk by lia; reflexivity).
    rewrite Hfmt.
    pose proof fmt_shape_all as Hall.
    rewrite forallb_forall in Hall.
    specialize (Hall (dt_hour t) (in_range_list 24 _ Hh)).
    rewrite forallb_forall in Hall.
    specialize (Hall (dt_minute t) (in_range_list 60 _ Hm)).
    apply String.eqb_eq. exact Hall.
  - pose proof (Z.mod_pos_bound (dt_hour t) 12 ltac:(lia)).
    destruct (dt_hour t mod 12 =? 0) eqn:E; [lia|].
    apply Z.eqb_neq in E. lia.
Qed.

(** ** A deadline kept by the parser *)


